(** * MemeGenius-AI: the canvas compositor of [src/components/MemeCanvas.tsx]
      and the sticker list of [src/App.tsx]

    A shallow embedding of the rendering routine [drawCanvas], of the pointer
    handlers and of the sticker-image cache, followed by the properties the
    specification states about them.

    Conventions of the embedding.
    - A JavaScript [number] is an IEEE-754 binary64 value: Rocq's primitive
      [float], whose operations round exactly as the JavaScript ones do.
    - The canvas is a record of its two dimensions, the state of its 2d
      context and the list of paint operations issued on its surface since
      the surface was last cleared; a paint operation records the part of the
      context state it depends on.
    - An image element is in one of the states of its image request: no
      data yet, completely available with a natural size, or broken (the load
      failed). [drawImage] throws on a broken image; a call that throws
      leaves the canvas as it was at that point.
    - React state is passed explicitly: a handler takes the bindings of the
      render it closes over and returns what it sets or emits. *)

From Stdlib Require Import ZArith Floats Uint63 Ascii String Lia.
From stdpp Require Import base option list strings gmap pretty.

Set Default Proof Using "Type".
(** Decimal literals such as [0.1] denote the nearest binary64 value, as they
    do in JavaScript. *)
Set Warnings "-inexact-float".
Set Warnings "-clear-no-such-hyp".
Open Scope float_scope.

(** ** JavaScript numbers *)

Module JS.

(** The number an integer converts to: an [unsigned long] attribute, a
    length or a loop index. The conversion goes through a 63-bit integer and
    is exact below 2^53. *)
Definition Number (z : Z) : float :=
  if (z <? 0)%Z then (- of_uint63 (Uint63.of_Z (- z)))%float
  else of_uint63 (Uint63.of_Z z).

(** Integer part (truncation towards zero) of a finite number; [0] for
    NaN and the infinities, as in the WebIDL integer conversions. *)
Definition IntegerPart (f : float) : Z :=
  match Prim2SF f with
  | S754_finite s m e =>
      let mag := match e with
                 | Z0 => Zpos m
                 | Zpos p => Z.shiftl (Zpos m) (Zpos p)
                 | Zneg p => Z.shiftr (Zpos m) (Zpos p)
                 end in
      if s then (- mag)%Z else mag
  | _ => 0%Z
  end.

(** WebIDL conversion of a number to [unsigned long]. *)
Definition ToUnsignedLong (f : float) : Z := (IntegerPart f mod 2 ^ 32)%Z.

(** [Math.min] of two numbers. *)
Definition Math_min (a b : float) : float :=
  if is_nan a then nan
  else if is_nan b then nan
  else if (b <? a)%float then b else a.

(** [Math.floor]. Every binary64 value of magnitude at least 2^52 is an
    integer already. *)
Definition Math_floor (f : float) : float :=
  if is_finite f && (abs f <? 4503599627370496)%float then
    let t := Number (IntegerPart f) in
    if (t =? f)%float then f
    else if (f <? t)%float then (t - 1)%float else t
  else f.

Definition Math_PI : float := 0x1.921fb54442d18p+1%float.

(** [x !== y] on numbers. *)
Definition strict_ne (a b : float) : bool := negb (a =? b)%float.

(** Truthiness of a [string | null]. *)
Definition truthy (s : option string) : bool :=
  match s with
  | Some t => negb (bool_decide (t = ""))
  | None => false
  end.

End JS.

(** ** Data model ([src/types.ts]) *)

Module Sticker.
Record t := mk {
  id : string;
  url : string;
  x : float;
  y : float;
  width : float;
  height : float;
  rotation : float }.

(** [{...s, x: nx, y: ny}] *)
Definition with_xy (s : t) (nx ny : float) : t :=
  {| id := id s; url := url s; x := nx; y := ny;
     width := width s; height := height s; rotation := rotation s |}.
End Sticker.

Record Point := { px : float; py : float }.

(** The bindings one render of [MemeCanvas] closes over: its props and its
    drag state. [drawCanvas] and the handlers of a render read these. *)
Record Render := {
  imageSrc : string;
  topText : string;
  bottomText : string;
  stickers : list Sticker.t;
  draggingId : option string;
  dragOffset : Point }.

(** ** Image elements *)

Module Image.
(** The state of the image request of an element: no data yet, all data
    decoded (with the natural size), or failed. *)
Inductive Status :=
| Unavailable
| Available (size : Z * Z)
| Broken.

(** [onload] is the render whose [drawCanvas] the load handler calls. *)
Record t := mk {
  src : string;
  status : Status;
  onload : option Render }.

(** The state of an element whose [src] was just set: available at once
    with the size the browser has decoded for that source already, if any. *)
Definition requested (decoded : option (Z * Z)) : Status :=
  match decoded with
  | Some size => Available size
  | None => Unavailable
  end.

(** [img.complete]: true for an empty source, and when the request is
    completely available or broken. *)
Definition complete (i : t) : bool :=
  bool_decide (src i = "")
  || match status i with
     | Unavailable => false
     | Available _ | Broken => true
     end.

Definition width (i : t) : Z :=
  match status i with
  | Available size => size.1
  | Unavailable | Broken => 0%Z
  end.

Definition height (i : t) : Z :=
  match status i with
  | Available size => size.2
  | Unavailable | Broken => 0%Z
  end.

(** Whether [drawImage] has something to draw: the data is there and
    neither natural dimension is zero. *)
Definition usable (i : t) : bool :=
  match status i with
  | Available size => negb ((size.1 =? 0)%Z || (size.2 =? 0)%Z)
  | Unavailable | Broken => false
  end.
End Image.

(** ** The canvas and its 2d context *)

Inductive Transform :=
| Translate (tx ty : float)
| Rotate (angle : float).

Record ContextState := {
  fillStyle : string;
  strokeStyle : string;
  lineWidth : float;
  textAlign : string;
  font : string;
  lineJoin : string;
  textBaseline : string;
  transform : list Transform }.

(** The state of a context after creation and after every resize. *)
Definition defaultState : ContextState :=
  {| fillStyle := "#000000"; strokeStyle := "#000000"; lineWidth := 1;
     textAlign := "start"; font := "10px sans-serif"; lineJoin := "miter";
     textBaseline := "alphabetic"; transform := [] |}.

(** What was painted, with the context state that decides its pixels. *)
Inductive PaintOp :=
| OpDrawImage (src : string) (dx dy dw dh : float) (tr : list Transform)
| OpStrokeRect (rx ry rw rh : float)
    (stroke : string) (lw : float) (join : string) (tr : list Transform)
| OpStrokeText (text : string) (tx ty : float)
    (stroke : string) (lw : float) (join : string)
    (fnt align baseline : string) (tr : list Transform)
| OpFillText (text : string) (tx ty : float)
    (fill : string) (fnt align baseline : string) (tr : list Transform)
| OpClearRect (rx ry rw rh : float) (tr : list Transform).

Module Canvas.
Record t := mk {
  width : Z;
  height : Z;
  state : ContextState;
  stack : list ContextState;
  surface : list PaintOp }.

(** A canvas element as the browser creates it. *)
Definition fresh : t :=
  {| width := 300; height := 150; state := defaultState; stack := [];
     surface := [] |}.

(** The width and height attributes are [unsigned long] limited to
    non-negative numbers with fallback. *)
Definition dimension (default : Z) (v : float) : Z :=
  let n := JS.ToUnsignedLong v in
  if (n <=? 2147483647)%Z then n else default.

(** Setting either dimension clears the surface and resets the context. *)
Definition set_width (v : float) (c : t) : t :=
  {| width := dimension 300 v; height := height c; state := defaultState;
     stack := []; surface := [] |}.
Definition set_height (v : float) (c : t) : t :=
  {| width := width c; height := dimension 150 v; state := defaultState;
     stack := []; surface := [] |}.

Definition with_state (f : ContextState → ContextState) (c : t) : t :=
  {| width := width c; height := height c; state := f (state c);
     stack := stack c; surface := surface c |}.

Definition paint (op : PaintOp) (c : t) : t :=
  {| width := width c; height := height c; state := state c;
     stack := stack c; surface := surface c ++ [op] |}.

Definition erase (c : t) : t :=
  {| width := width c; height := height c; state := state c;
     stack := stack c; surface := [] |}.
End Canvas.

(** How a call on the canvas ends: it returns, or an exception leaves it.
    Either way the canvas is as the call has left it. *)
Inductive DOMException :=
| InvalidStateError.

Inductive Outcome :=
| Returned (c : Canvas.t)
| Threw (e : DOMException) (c : Canvas.t).

Definition after (o : Outcome) : Canvas.t :=
  match o with
  | Returned c | Threw _ c => c
  end.

(** The statements after a call run only when it has returned. *)
Definition andThen (o : Outcome) (f : Canvas.t → Outcome) : Outcome :=
  match o with
  | Returned c => f c
  | Threw e c => Threw e c
  end.

(** [list.forEach(body)]: an exception in one pass ends the loop. *)
Fixpoint forEach {A} (body : Canvas.t → A → Outcome) (l : list A)
    (c : Canvas.t) : Outcome :=
  match l with
  | [] => Returned c
  | a :: rest => andThen (body c a) (forEach body rest)
  end.

(** *** CanvasRenderingContext2D *)

Module Ctx.
Import Canvas.

Definition save (c : t) : t :=
  {| width := width c; height := height c; state := state c;
     stack := state c :: stack c; surface := surface c |}.

Definition restore (c : t) : t :=
  match stack c with
  | s :: rest =>
      {| width := width c; height := height c; state := s;
         stack := rest; surface := surface c |}
  | [] => c
  end.

Definition apply (tr : Transform) (s : ContextState) : ContextState :=
  {| fillStyle := fillStyle s; strokeStyle := strokeStyle s;
     lineWidth := lineWidth s; textAlign := textAlign s; font := font s;
     lineJoin := lineJoin s; textBaseline := textBaseline s;
     transform := transform s ++ [tr] |}.

Definition translate (tx ty : float) : t → t :=
  with_state (apply (Translate tx ty)).
Definition rotate (angle : float) : t → t :=
  with_state (apply (Rotate angle)).

Definition set_fillStyle (v : string) : t → t :=
  with_state (λ s,
    {| fillStyle := v; strokeStyle := strokeStyle s;
       lineWidth := lineWidth s; textAlign := textAlign s; font := font s;
       lineJoin := lineJoin s; textBaseline := textBaseline s;
       transform := transform s |}).

Definition set_strokeStyle (v : string) : t → t :=
  with_state (λ s,
    {| fillStyle := fillStyle s; strokeStyle := v;
       lineWidth := lineWidth s; textAlign := textAlign s; font := font s;
       lineJoin := lineJoin s; textBaseline := textBaseline s;
       transform := transform s |}).

(** Zero, negative, infinite and NaN widths are ignored. *)
Definition set_lineWidth (v : float) (c : t) : t :=
  if is_finite v && (0 <? v)%float then
    with_state (λ s,
      {| fillStyle := fillStyle s; strokeStyle := strokeStyle s;
         lineWidth := v; textAlign := textAlign s; font := font s;
         lineJoin := lineJoin s; textBaseline := textBaseline s;
         transform := transform s |}) c
  else c.

Definition set_textAlign (v : string) : t → t :=
  with_state (λ s,
    {| fillStyle := fillStyle s; strokeStyle := strokeStyle s;
       lineWidth := lineWidth s; textAlign := v; font := font s;
       lineJoin := lineJoin s; textBaseline := textBaseline s;
       transform := transform s |}).

Definition set_font (v : string) : t → t :=
  with_state (λ s,
    {| fillStyle := fillStyle s; strokeStyle := strokeStyle s;
       lineWidth := lineWidth s; textAlign := textAlign s; font := v;
       lineJoin := lineJoin s; textBaseline := textBaseline s;
       transform := transform s |}).

Definition set_lineJoin (v : string) : t → t :=
  with_state (λ s,
    {| fillStyle := fillStyle s; strokeStyle := strokeStyle s;
       lineWidth := lineWidth s; textAlign := textAlign s; font := font s;
       lineJoin := v; textBaseline := textBaseline s;
       transform := transform s |}).

Definition set_textBaseline (v : string) : t → t :=
  with_state (λ s,
    {| fillStyle := fillStyle s; strokeStyle := strokeStyle s;
       lineWidth := lineWidth s; textAlign := textAlign s; font := font s;
       lineJoin := lineJoin s; textBaseline := v;
       transform := transform s |}).

(** A broken image makes [drawImage] throw; an image without data, or
    with a natural dimension of zero, is not drawn. *)
Definition drawImage (img : Image.t) (dx dy dw dh : float) (c : t)
    : Outcome :=
  match Image.status img with
  | Image.Broken => Threw InvalidStateError c
  | Image.Available _ | Image.Unavailable =>
      if Image.usable img
      then Returned
             (paint (OpDrawImage (Image.src img) dx dy dw dh
                       (transform (state c))) c)
      else Returned c
  end.

Definition strokeRect (rx ry rw rh : float) (c : t) : t :=
  paint (OpStrokeRect rx ry rw rh (strokeStyle (state c))
           (lineWidth (state c)) (lineJoin (state c)) (transform (state c))) c.

Definition strokeText (text : string) (tx ty : float) (c : t) : t :=
  paint (OpStrokeText text tx ty (strokeStyle (state c))
           (lineWidth (state c)) (lineJoin (state c)) (font (state c))
           (textAlign (state c)) (textBaseline (state c))
           (transform (state c))) c.

Definition fillText (text : string) (tx ty : float) (c : t) : t :=
  paint (OpFillText text tx ty (fillStyle (state c)) (font (state c))
           (textAlign (state c)) (textBaseline (state c))
           (transform (state c))) c.

(** Whether the rectangle is the whole surface, untransformed. *)
Definition covers (rx ry rw rh : float) (c : t) : bool :=
  bool_decide (transform (state c) = [])
  && PrimFloat.Leibniz.eqb rx 0 && PrimFloat.Leibniz.eqb ry 0
  && PrimFloat.Leibniz.eqb rw (JS.Number (width c))
  && PrimFloat.Leibniz.eqb rh (JS.Number (height c)).

(** Clearing the whole surface leaves nothing of what was painted. *)
Definition clearRect (rx ry rw rh : float) (c : t) : t :=
  if covers rx ry rw rh c then erase c
  else paint (OpClearRect rx ry rw rh (transform (state c))) c.
End Ctx.

(** ** Strings: [toUpperCase] and [split(' ')] *)

Module Str.

(** Upper-casing of the ASCII letters; captions are modelled as ASCII. *)
Definition upper_ascii (a : ascii) : ascii :=
  let n := N_of_ascii a in
  if ((97 <=? n) && (n <=? 122))%N then ascii_of_N (n - 32) else a.

Fixpoint toUpperCase (s : string) : string :=
  match s with
  | EmptyString => EmptyString
  | String a rest => String (upper_ascii a) (toUpperCase rest)
  end.

(** [s.split(' ')]: the pieces between single spaces, empty ones kept. *)
Fixpoint split (s : string) : list string :=
  match s with
  | EmptyString => [""]
  | String a rest =>
      if bool_decide (a = " "%char) then "" :: split rest
      else match split rest with
           | w :: ws => String a w :: ws
           | [] => [String a ""]
           end
  end.

End Str.

(** ** Rendering ([drawCanvas], lines 71-171) *)

Section Rendering.

(** [ctx.measureText(text).width] under a given [ctx.font]: the browser's
    text measurement. *)
Variable measureText : string → string → float.

Definition MAX_WIDTH : float := 800.

(** Lines 77-86: the image element created for the background, and the
    handler registered on it when it is not complete. *)
Definition background (r : Render) (decoded : option (Z * Z)) : Image.t :=
  let img := {| Image.src := imageSrc r;
                Image.status := Image.requested decoded;
                Image.onload := None |} in
  if negb (Image.complete img)
  then {| Image.src := Image.src img; Image.status := Image.status img;
          Image.onload := Some r |}
  else img.

(** Lines 88-99: size the surface, or clear it. *)
Definition prepare (img : Image.t) (canvas : Canvas.t) : Canvas.t :=
  let scale := JS.Math_min 1 (MAX_WIDTH / JS.Number (Image.width img)) in
  if JS.strict_ne (JS.Number (Canvas.width canvas))
       (JS.Number (Image.width img) * scale)
     || JS.strict_ne (JS.Number (Canvas.height canvas))
          (JS.Number (Image.height img) * scale)
  then
    let canvas :=
      Canvas.set_width (JS.Number (Image.width img) * scale) canvas in
    Canvas.set_height (JS.Number (Image.height img) * scale) canvas
  else
    Ctx.clearRect 0 0 (JS.Number (Canvas.width canvas))
      (JS.Number (Canvas.height canvas)) canvas.

(** Lines 105-122: the body of the sticker loop. When [drawImage] throws,
    the pass ends after [save], [translate] and [rotate] and before
    [restore]. *)
Definition drawSticker (dragging : option string)
    (stickerImages : string → option Image.t)
    (canvas : Canvas.t) (sticker : Sticker.t) : Outcome :=
  match stickerImages (Sticker.id sticker) with
  | Some sImg =>
      if Image.complete sImg then
        let canvas := Ctx.save canvas in
        let canvas :=
          Ctx.translate (Sticker.x sticker) (Sticker.y sticker) canvas in
        let canvas :=
          Ctx.rotate (Sticker.rotation sticker * JS.Math_PI / 180) canvas in
        andThen
          (Ctx.drawImage sImg (- Sticker.width sticker / 2)
             (- Sticker.height sticker / 2)
             (Sticker.width sticker) (Sticker.height sticker) canvas)
          (λ canvas,
             let canvas :=
               if bool_decide (dragging = Some (Sticker.id sticker)) then
                 let canvas := Ctx.set_strokeStyle "#a855f7" canvas in
                 let canvas := Ctx.set_lineWidth 2 canvas in
                 Ctx.strokeRect (- Sticker.width sticker / 2)
                   (- Sticker.height sticker / 2)
                   (Sticker.width sticker) (Sticker.height sticker) canvas
               else canvas in
             Returned (Ctx.restore canvas))
      else Returned canvas
  | None => Returned canvas
  end.

(** Lines 144-155: the greedy line breaker. [n] is the loop index. *)
Fixpoint wrap (fnt : string) (maxWidth : float) (words : list string)
    (n : nat) (line : string) (lines : list string) : list string :=
  match words with
  | [] => lines ++ [line]
  | word :: rest =>
      let testLine := (line +:+ word) +:+ " " in
      let testWidth := measureText fnt testLine in
      if (maxWidth <? testWidth)%float && bool_decide (0 < n)%nat
      then wrap fnt maxWidth rest (S n) (word +:+ " ") (lines ++ [line])
      else wrap fnt maxWidth rest (S n) testLine lines
  end.

(** Lines 138-155: the lines a non-empty caption is broken into. *)
Definition wrapLines (fnt : string) (maxWidth : float) (text : string)
    : list string :=
  wrap fnt maxWidth (Str.split (Str.toUpperCase text)) 0 "" [].

(** Lines 162-165. *)
Fixpoint drawLines (lines : list string) (i : nat)
    (x currentY lineHeight : float) (canvas : Canvas.t) : Canvas.t :=
  match lines with
  | [] => canvas
  | l :: rest =>
      let ly := (currentY + JS.Number (Z.of_nat i) * lineHeight)%float in
      let canvas := Ctx.strokeText l x ly canvas in
      let canvas := Ctx.fillText l x ly canvas in
      drawLines rest (S i) x currentY lineHeight canvas
  end.

(** Lines 133-166. *)
Definition drawText (fontSize : float) (text : string) (y : float)
    (baseline : string) (canvas : Canvas.t) : Canvas.t :=
  if bool_decide (text = "") then canvas
  else
    let x := (JS.Number (Canvas.width canvas) / 2)%float in
    let canvas := Ctx.set_textBaseline baseline canvas in
    let maxWidth := (JS.Number (Canvas.width canvas) * 0.95)%float in
    let lineHeight := (fontSize * 1.2)%float in
    let lines := wrapLines (font (Canvas.state canvas)) maxWidth text in
    let currentY :=
      if bool_decide (baseline = "bottom")
      then (y - JS.Number (Z.of_nat (length lines) - 1) * lineHeight)%float
      else y in
    drawLines lines 0 x currentY lineHeight canvas.

(** Lines 124-131 and 168-170. [fontSize] is an integer (a floor): the
    template literal of line 130 prints its digits. *)
Definition drawCaptions (r : Render) (canvas : Canvas.t) : Canvas.t :=
  let fontSize := JS.Math_floor (JS.Number (Canvas.width canvas) * 0.1) in
  let canvas := Ctx.set_fillStyle "white" canvas in
  let canvas := Ctx.set_strokeStyle "black" canvas in
  let canvas := Ctx.set_lineWidth (JS.Math_floor (fontSize / 8)) canvas in
  let canvas := Ctx.set_textAlign "center" canvas in
  let canvas :=
    Ctx.set_font ("900 " +:+ pretty (JS.IntegerPart fontSize)
                  +:+ "px Impact, sans-serif") canvas in
  let canvas := Ctx.set_lineJoin "round" canvas in
  let canvas :=
    drawText fontSize (topText r)
      (JS.Number (Canvas.height canvas) * 0.05) "top" canvas in
  drawText fontSize (bottomText r)
    (JS.Number (Canvas.height canvas) * 0.95) "bottom" canvas.

(** [drawCanvas] of render [r] on a mounted canvas with a 2d context.
    [decoded] is what the browser has for [imageSrc] when the fresh image
    element is read; [stickerImages] is [stickerImagesRef.current.get]. *)
Definition drawCanvas (r : Render) (decoded : option (Z * Z))
    (stickerImages : string → option Image.t) (canvas : Canvas.t)
    : Outcome :=
  let img := background r decoded in
  let canvas := prepare img canvas in
  andThen
    (Ctx.drawImage img 0 0 (JS.Number (Canvas.width canvas))
       (JS.Number (Canvas.height canvas)) canvas)
    (λ canvas,
       andThen
         (forEach (drawSticker (draggingId r) stickerImages) (stickers r)
            canvas)
         (λ canvas, Returned (drawCaptions r canvas))).

(** [canvasRef.current] may be null (lines 72-73): nothing happens then. *)
Definition drawCanvasRef (r : Render) (decoded : option (Z * Z))
    (stickerImages : string → option Image.t) (ref : option Canvas.t)
    : option Outcome :=
  drawCanvas r decoded stickerImages <$> ref.

End Rendering.

(** ** Pointer handlers (lines 178-234) *)

Record MouseEvent := { clientX : float; clientY : float }.

Module DOMRect.
Record t := mk { left : float; top : float; width : float; height : float }.
End DOMRect.

(** [canvasRef.current] when mounted: the canvas and the rectangle
    [getBoundingClientRect] reports for it. *)
Definition CanvasRef : Type := option (Canvas.t * DOMRect.t).

Definition getMousePos (ref : CanvasRef) (evt : MouseEvent) : Point :=
  match ref with
  | None => {| px := 0; py := 0 |}
  | Some (canvas, rect) =>
      let scaleX := JS.Number (Canvas.width canvas) / DOMRect.width rect in
      let scaleY := JS.Number (Canvas.height canvas) / DOMRect.height rect in
      {| px := (clientX evt - DOMRect.left rect) * scaleX;
         py := (clientY evt - DOMRect.top rect) * scaleY |}
  end.

(** The bounding-box test of lines 197-202; the rotation is not read. *)
Definition hit (pos : Point) (s : Sticker.t) : bool :=
  (Sticker.x s - Sticker.width s / 2 <=? px pos)
  && (px pos <=? Sticker.x s + Sticker.width s / 2)
  && (Sticker.y s - Sticker.height s / 2 <=? py pos)
  && (py pos <=? Sticker.y s + Sticker.height s / 2).

(** The loop of lines 194-207, entered with [i = stickers.length]: the
    pass for index [i - 1], then the passes below it. Every index the loop
    visits is within the list. *)
Fixpoint hitTest (stickers : list Sticker.t) (pos : Point) (i : nat)
    : option Sticker.t :=
  match i with
  | O => None
  | S j =>
      match stickers !! j with
      | Some s => if hit pos s then Some s else hitTest stickers pos j
      | None => None
      end
  end.

(** The drag state after [handleMouseDown]: [draggingId] and [dragOffset]. *)
Definition handleMouseDown (r : Render) (ref : CanvasRef) (e : MouseEvent)
    : option string * Point :=
  let pos := getMousePos ref e in
  match hitTest (stickers r) pos (length (stickers r)) with
  | Some s =>
      (Some (Sticker.id s),
       {| px := px pos - Sticker.x s; py := py pos - Sticker.y s |})
  | None => (draggingId r, dragOffset r)
  end.

(** What [handleMouseMove] passes to [onStickersChange], if it calls it. *)
Definition handleMouseMove (r : Render) (ref : CanvasRef) (e : MouseEvent)
    : option (list Sticker.t) :=
  if negb (JS.truthy (draggingId r)) then None
  else
    let pos := getMousePos ref e in
    Some (map (λ s,
                 if bool_decide (Some (Sticker.id s) = draggingId r)
                 then Sticker.with_xy s (px pos - px (dragOffset r))
                        (py pos - py (dragOffset r))
                 else s)
              (stickers r)).

Definition handleMouseUp (r : Render) : option string * Point :=
  (None, dragOffset r).

Definition handleMouseLeave (r : Render) : option string * Point :=
  (None, dragOffset r).

(** ** The owner's sticker list ([src/App.tsx]) *)

Definition with_stickers (r : Render) (l : list Sticker.t) : Render :=
  {| imageSrc := imageSrc r; topText := topText r; bottomText := bottomText r;
     stickers := l; draggingId := draggingId r; dragOffset := dragOffset r |}.

Module App.

(** Lines 202-212 of [handleGenerateSticker], once [generateSticker] has
    resolved to [stickerBase64]; [now] is the value of [Date.now()]. *)
Definition newSticker (now : Z) (stickerBase64 : string) : Sticker.t :=
  {| Sticker.id := pretty now; Sticker.url := stickerBase64;
     Sticker.x := 150; Sticker.y := 150;
     Sticker.width := 100; Sticker.height := 100; Sticker.rotation := 0 |}.

Definition handleGenerateSticker (now : Z) (stickerBase64 : string)
    (prev : list Sticker.t) : list Sticker.t :=
  prev ++ [newSticker now stickerBase64].

Definition removeSticker (id : string) (prev : list Sticker.t)
    : list Sticker.t :=
  filter (λ s, Sticker.id s ≠ id) prev.

(** What happens to the list in a session. [Dragged] is a pointer move on
    the canvas, whose [onStickersChange] is the owner's [setStickers]. *)
Inductive event :=
| Generated (now : Z) (stickerBase64 : string)
| Removed (id : string)
| Cleared
| Dragged (dragging : option string) (offset : Point)
    (ref : CanvasRef) (e : MouseEvent).

Definition step (l : list Sticker.t) (ev : event) : list Sticker.t :=
  match ev with
  | Generated now stickerBase64 => handleGenerateSticker now stickerBase64 l
  | Removed id => removeSticker id l
  | Cleared => []
  | Dragged dragging offset ref e =>
      let r := {| imageSrc := ""; topText := ""; bottomText := "";
                  stickers := l; draggingId := dragging;
                  dragOffset := offset |} in
      default l (handleMouseMove r ref e)
  end.

Definition run (evs : list event) : list Sticker.t := fold_left step evs [].

Definition ids (l : list Sticker.t) : list string := Sticker.id <$> l.

End App.

(** ** The sticker-image cache and the image loads (lines 24, 41-69) *)

Module World.

(** The image elements created so far, [stickerImagesRef.current] as a
    map from identifier to element, the canvas, and the render React
    committed last. *)
Record t := mk {
  heap : list Image.t;
  cache : gmap string nat;
  canvas : Canvas.t;
  props : Render }.

Definition initial : t :=
  {| heap := []; cache := ∅; canvas := Canvas.fresh;
     props := {| imageSrc := ""; topText := ""; bottomText := "";
                 stickers := []; draggingId := None;
                 dragOffset := {| px := 0; py := 0 |} |} |}.

(** [stickerImagesRef.current.get(id)] *)
Definition stickerImages (w : t) (id : string) : option Image.t :=
  cache w !! id ≫= λ h, heap w !! h.

(** Lines 42-60: one pass of the [forEach]. [available] is what the
    browser has decoded already for a source when the element is made. *)
Definition loadSticker (r : Render) (available : string → option (Z * Z))
    (w : t) (sticker : Sticker.t) : t :=
  match cache w !! Sticker.id sticker with
  | Some _ => w
  | None =>
      let img := {| Image.src := Sticker.url sticker;
                    Image.status :=
                      Image.requested (available (Sticker.url sticker));
                    Image.onload := Some r |} in
      {| heap := heap w ++ [img];
         cache := <[Sticker.id sticker := length (heap w)]> (cache w);
         canvas := canvas w; props := props w |}
  end.

(** Lines 63-68: delete every key that is not a current identifier. *)
Definition cleanup (currentIds : gset string) (m : gmap string nat)
    : gmap string nat :=
  foldr (λ id acc, if bool_decide (id ∈ currentIds) then acc
                   else delete id acc)
        m (elements (dom m)).

(** The effect of lines 41-69. *)
Definition stickersEffect (r : Render)
    (available : string → option (Z * Z)) (w : t) : t :=
  let w := fold_left (loadSticker r available) (stickers r) w in
  {| heap := heap w;
     cache := cleanup (list_to_set (Sticker.id <$> stickers r)) (cache w);
     canvas := canvas w; props := props w |}.

Section Events.
Variable measureText : string → string → float.

(** A call of [drawCanvas] of render [r]. The canvas is as the call
    leaves it, whether it returns or throws; what the caller does with an
    exception is not part of the state. *)
Definition draw (r : Render) (available : string → option (Z * Z))
    (w : t) : t :=
  {| heap := heap w ++ [background r (available (imageSrc r))];
     cache := cache w;
     canvas := after (drawCanvas measureText r (available (imageSrc r))
                        (stickerImages w) (canvas w));
     props := props w |}.

(** React commits render [r]: the effects run in the order in which the
    component declares them. The first one depends on [stickers]; where React
    would skip it because the list is the same, running it changes nothing
    (lemma [stickersEffect_again]). *)
Definition commit (r : Render) (available : string → option (Z * Z))
    (w : t) : t :=
  let w := stickersEffect r available w in
  let w := draw r available w in
  {| heap := heap w; cache := cache w; canvas := canvas w; props := r |}.

(** Image element [h] becomes complete with the decoded size [size]. *)
Definition decoded (h : nat) (size : Z * Z) (w : t) : t :=
  {| heap := alter (λ img, {| Image.src := Image.src img;
                              Image.status := Image.Available size;
                              Image.onload := Image.onload img |})
               h (heap w);
     cache := cache w; canvas := canvas w; props := props w |}.

(** The load of image element [h] fails: the element is broken. No error
    handler is registered on any element (lines 44-58 and 77-86), so nothing
    else happens. *)
Definition failed (h : nat) (w : t) : t :=
  {| heap := alter (λ img, {| Image.src := Image.src img;
                              Image.status := Image.Broken;
                              Image.onload := Image.onload img |})
               h (heap w);
     cache := cache w; canvas := canvas w; props := props w |}.

(** The load event of element [h]: its handler, if any, runs. *)
Definition load (h : nat) (size : Z * Z)
    (available : string → option (Z * Z)) (w : t) : t :=
  let w' := decoded h size w in
  match heap w !! h ≫= Image.onload with
  | Some r => draw r available w'
  | None => w'
  end.

(** What happens to a mounted canvas: a commit, the load event of an
    image element, or the failure of its load. No order is imposed on
    them. *)
Inductive event :=
| Commit (r : Render) (available : string → option (Z * Z))
| Load (h : nat) (size : Z * Z) (available : string → option (Z * Z))
| LoadError (h : nat).

Definition step (w : t) (ev : event) : t :=
  match ev with
  | Commit r available => commit r available w
  | Load h size available => load h size available w
  | LoadError h => failed h w
  end.

Definition run (evs : list event) : t := fold_left step evs initial.
End Events.

End World.

(** ** A drag session *)

(** Pointer moves of one drag, each with the canvas geometry at that moment.
    The owner stores every list the canvas emits and renders the canvas with
    it, so the next move starts from the list the previous one produced. *)
Definition dragMoves (r : Render) (moves : list (CanvasRef * MouseEvent))
    : list Sticker.t :=
  fold_left (λ l m, default l (handleMouseMove (with_stickers r l) m.1 m.2))
    moves (stickers r).

(** ** Derived forms

    The functions below are not in the source: they name what the loops above
    compute, and the conditions the properties speak of. *)

(** The sticker with another rotation. *)
Definition withRotation (rot : Sticker.t → float) (s : Sticker.t)
    : Sticker.t :=
  {| Sticker.id := Sticker.id s; Sticker.url := Sticker.url s;
     Sticker.x := Sticker.x s; Sticker.y := Sticker.y s;
     Sticker.width := Sticker.width s; Sticker.height := Sticker.height s;
     Sticker.rotation := rot s |}.

(** The box of [hit] in the words of the specification: the pointer is
    within half the width and half the height of the centre. In real
    arithmetic this is the test of [hit]; in binary64 the two round
    differently, and differ for some pointers within a rounding error of an
    edge of the box. *)
Definition withinHalfExtents (pos : Point) (s : Sticker.t) : bool :=
  (abs (px pos - Sticker.x s) <=? Sticker.width s / 2)
  && (abs (py pos - Sticker.y s) <=? Sticker.height s / 2).

(** The list a move emits while a drag is active. *)
Definition moved (dragging : option string) (offset pos : Point)
    (l : list Sticker.t) : list Sticker.t :=
  map (λ s, if bool_decide (Some (Sticker.id s) = dragging)
            then Sticker.with_xy s (px pos - px offset) (py pos - py offset)
            else s) l.

(** The line the loop has accumulated when it never breaks. *)
Definition joined (line : string) (words : list string) : string :=
  fold_left (λ acc w, (acc +:+ w) +:+ " ") words line.

(** [testWidth > maxWidth] is false for the text [s]. *)
Definition fits (measureText : string → string → float) (fnt : string)
    (maxWidth : float) (s : string) : Prop :=
  (maxWidth <? measureText fnt s) = false.

(** The cached image of the sticker is broken: its load failed. *)
Definition broken (stickerImages : string → option Image.t)
    (sticker : Sticker.t) : bool :=
  match stickerImages (Sticker.id sticker) with
  | Some sImg =>
      match Image.status sImg with
      | Image.Broken => true
      | Image.Available _ | Image.Unavailable => false
      end
  | None => false
  end.

(** What one pass of the sticker loop paints under context state [st] when
    it returns. *)
Definition stickerOps (dragging : option string)
    (stickerImages : string → option Image.t) (st : ContextState)
    (sticker : Sticker.t) : list PaintOp :=
  match stickerImages (Sticker.id sticker) with
  | Some sImg =>
      if Image.complete sImg then
        let tr := (transform st
                   ++ [Translate (Sticker.x sticker) (Sticker.y sticker)])
                  ++ [Rotate (Sticker.rotation sticker * JS.Math_PI / 180)] in
        (if Image.usable sImg
         then [OpDrawImage (Image.src sImg) (- Sticker.width sticker / 2)
                 (- Sticker.height sticker / 2)
                 (Sticker.width sticker) (Sticker.height sticker) tr]
         else [])
        ++ (if bool_decide (dragging = Some (Sticker.id sticker))
            then [OpStrokeRect (- Sticker.width sticker / 2)
                    (- Sticker.height sticker / 2)
                    (Sticker.width sticker) (Sticker.height sticker)
                    "#a855f7" 2 (lineJoin st) tr]
            else [])
      else []
  | None => []
  end.

(** What [drawLines] paints under context state [st]. *)
Fixpoint lineOps (st : ContextState) (lines : list string) (i : nat)
    (x currentY lineHeight : float) : list PaintOp :=
  match lines with
  | [] => []
  | l :: rest =>
      let ly := (currentY + JS.Number (Z.of_nat i) * lineHeight)%float in
      OpStrokeText l x ly (strokeStyle st) (lineWidth st) (lineJoin st)
        (font st) (textAlign st) (textBaseline st) (transform st)
      :: OpFillText l x ly (fillStyle st) (font st) (textAlign st)
           (textBaseline st) (transform st)
      :: lineOps st rest (S i) x currentY lineHeight
  end.

Section Frame.
Variable measureText : string → string → float.

Definition withBaseline (b : string) (st : ContextState) : ContextState :=
  {| fillStyle := fillStyle st; strokeStyle := strokeStyle st;
     lineWidth := lineWidth st; textAlign := textAlign st; font := font st;
     lineJoin := lineJoin st; textBaseline := b; transform := transform st |}.

(** [ctx.lineWidth] after line 128 on a canvas of width [w]. *)
Definition lineWidthFor (w : Z) (old : float) : float :=
  let fontSize := JS.Math_floor (JS.Number w * 0.1) in
  let lw := JS.Math_floor (fontSize / 8) in
  if is_finite lw && (0 <? lw) then lw else old.

(** [ctx.font] after line 130. *)
Definition fontFor (w : Z) : string :=
  let fontSize := JS.Math_floor (JS.Number w * 0.1) in
  "900 " +:+ pretty (JS.IntegerPart fontSize) +:+ "px Impact, sans-serif".

(** The context state after the text styles of lines 125-131 are set on a
    canvas of width [w]. *)
Definition styled (w : Z) (st : ContextState) : ContextState :=
  {| fillStyle := "white"; strokeStyle := "black";
     lineWidth := lineWidthFor w (lineWidth st);
     textAlign := "center"; font := fontFor w;
     lineJoin := "round"; textBaseline := textBaseline st;
     transform := transform st |}.

(** The context state after [drawText]. *)
Definition textState (text b : string) (st : ContextState) : ContextState :=
  if bool_decide (text = "") then st else withBaseline b st.

(** What [drawText] paints on a canvas of width [w] in state [st]. *)
Definition textOps (w : Z) (fontSize : float) (text : string) (y : float)
    (b : string) (st : ContextState) : list PaintOp :=
  if bool_decide (text = "") then []
  else
    let lineHeight := fontSize * 1.2 in
    let lines := wrapLines measureText (font st) (JS.Number w * 0.95) text in
    lineOps (withBaseline b st) lines 0 (JS.Number w / 2)
      (if bool_decide (b = "bottom")
       then y - JS.Number (Z.of_nat (length lines) - 1) * lineHeight
       else y)
      lineHeight.

(** The context state one frame leaves behind, and what it paints, on a
    prepared canvas of size [w] x [h] in state [st]. *)
Definition frameState (r : Render) (w : Z) (st : ContextState)
    : ContextState :=
  textState (bottomText r) "bottom" (textState (topText r) "top" (styled w st)).

Definition frameOps (r : Render) (img : Image.t)
    (images : string → option Image.t) (w h : Z) (st : ContextState)
    : list PaintOp :=
  let fontSize := JS.Math_floor (JS.Number w * 0.1) in
  (if Image.usable img
   then [OpDrawImage (Image.src img) 0 0 (JS.Number w) (JS.Number h)
           (transform st)]
   else [])
  ++ flat_map (stickerOps (draggingId r) images st) (stickers r)
  ++ textOps w fontSize (topText r) (JS.Number h * 0.05) "top" (styled w st)
  ++ textOps w fontSize (bottomText r) (JS.Number h * 0.95) "bottom"
       (textState (topText r) "top" (styled w st)).

End Frame.

(** The test of line 94. *)
Definition needsResize (img : Image.t) (canvas : Canvas.t) : bool :=
  let scale := JS.Math_min 1 (MAX_WIDTH / JS.Number (Image.width img)) in
  JS.strict_ne (JS.Number (Canvas.width canvas))
    (JS.Number (Image.width img) * scale)
  || JS.strict_ne (JS.Number (Canvas.height canvas))
       (JS.Number (Image.height img) * scale).

(** The canvas lines 95-96 produce. *)
Definition sized (img : Image.t) : Canvas.t :=
  let scale := JS.Math_min 1 (MAX_WIDTH / JS.Number (Image.width img)) in
  {| Canvas.width :=
       Canvas.dimension 300 (JS.Number (Image.width img) * scale);
     Canvas.height :=
       Canvas.dimension 150 (JS.Number (Image.height img) * scale);
     Canvas.state := defaultState; Canvas.stack := []; Canvas.surface := [] |}.

Section Reachable.
Variable measureText : string → string → float.

(** The canvases the component holds as long as no call of [drawCanvas]
    has thrown: the fresh one, and what a call that returns makes of one of
    them. *)
Inductive Drawn : Canvas.t → Prop :=
| Drawn_fresh : Drawn Canvas.fresh
| Drawn_draw r decoded images c c' :
    Drawn c → drawCanvas measureText r decoded images c = Returned c' →
    Drawn c'.

(** The canvases the component can hold at all: a call that throws leaves
    one too. *)
Inductive Held : Canvas.t → Prop :=
| Held_fresh : Held Canvas.fresh
| Held_draw r decoded images c :
    Held c → Held (after (drawCanvas measureText r decoded images c)).

End Reachable.



(** ** Data of the worked examples *)

Module Scenario.

(** A text measure for the examples: every character is [unit] wide. *)
Definition monospace (unit : Z) (fnt text : string) : float :=
  JS.Number (unit * Z.of_nat (String.length text)).

(** The sticker of the specification's example, at its default place. *)
Definition sticker : Sticker.t :=
  App.newSticker 1000 "data:image/png;base64,AA".

Definition idle : Render :=
  {| imageSrc := "meme.png"; topText := "hello big world";
     bottomText := "bottom text"; stickers := [sticker];
     draggingId := None; dragOffset := {| px := 0; py := 0 |} |}.

Definition dragging : Render :=
  {| imageSrc := "meme.png"; topText := "hello big world";
     bottomText := "bottom text"; stickers := [sticker];
     draggingId := Some "1000"; dragOffset := {| px := 0; py := 0 |} |}.

(** An 800 x 450 surface displayed at its own size. *)
Definition surface : Canvas.t :=
  {| Canvas.width := 800; Canvas.height := 450; Canvas.state := defaultState;
     Canvas.stack := []; Canvas.surface := [] |}.

Definition mounted : CanvasRef :=
  Some (surface, {| DOMRect.left := 0; DOMRect.top := 0;
                    DOMRect.width := 800; DOMRect.height := 450 |}).

Definition at_150_150 : MouseEvent := {| clientX := 150; clientY := 150 |}.
Definition at_220_180 : MouseEvent := {| clientX := 220; clientY := 180 |}.
Definition at_300_200 : MouseEvent := {| clientX := 300; clientY := 200 |}.

(** Every sticker image is decoded. *)
Definition loaded (id : string) : option Image.t :=
  Some {| Image.src := "data:image/png;base64,AA";
          Image.status := Image.Available (512, 512)%Z;
          Image.onload := None |}.

(** The browser has decoded nothing yet. *)
Definition pending (src : string) : option (Z * Z) := None.

(** A session: the sticker arrives, then it is removed while its image is
    still loading, then the load completes. *)
Definition session : list World.event :=
  [World.Commit idle pending;
   World.Commit (with_stickers idle (App.removeSticker "1000" (stickers idle)))
     pending;
   World.Load 0 (512, 512)%Z pending].

(** The canvas after a frame with a decoded 1600 x 900 background. *)
Definition drawn : Canvas.t :=
  after
    (drawCanvas (monospace 40) idle (Some (1600, 900)%Z) loaded Canvas.fresh).

End Scenario.

(** ** The AI service ([src/services/geminiService.ts]) *)

Module Service.

(** The rest of [s] after the prefix [p], if [s] starts with [p]. *)
Fixpoint stripPrefix (p s : string) : option string :=
  match p, s with
  | EmptyString, _ => Some s
  | String a p', String b s' =>
      if bool_decide (a = b) then stripPrefix p' s' else None
  | String _ _, EmptyString => None
  end.

(** Lines 16-18: [dataUrl.replace(/^data:image\/(png|jpeg|webp);base64,/, "")].
    The pattern is anchored and has no flag: it matches at most once, at the
    start, one of three prefixes. *)
Definition cleanBase64 (dataUrl : string) : string :=
  match stripPrefix "data:image/png;base64," dataUrl with
  | Some rest => rest
  | None =>
      match stripPrefix "data:image/jpeg;base64," dataUrl with
      | Some rest => rest
      | None =>
          match stripPrefix "data:image/webp;base64," dataUrl with
          | Some rest => rest
          | None => dataUrl
          end
      end
  end.

(** What the service functions throw. *)
Inductive Error :=
| ApiError (message : string)
| NoImageData
| NoStickerGenerated.

(** The parts of a [generateContent] response the code reads; every step of
    [response.candidates?.[0]?.content?.parts?.[0]] may be missing. *)
Record InlineData := { data : option string }.
Record Part := { inlineData : option InlineData }.
Record Content := { parts : option (list Part) }.
Record Candidate := { content : option Content }.
Record GenerateContentResponse := { candidates : option (list Candidate) }.

(** The parts of a [generateImages] response the code reads. *)
Record GeneratedImageData := { imageBytes : option string }.
Record GeneratedImage := { image : option GeneratedImageData }.
Record GenerateImagesResponse := {
  generatedImages : option (list GeneratedImage) }.

(** A string that is present and not empty. *)
Definition truthyString (s : option string) : option string :=
  match s with
  | Some t => if bool_decide (t = "") then None else Some t
  | None => None
  end.

(** Lines 68-101 of [editImageWithAI], from the settled request on: a
    rejected request is thrown again by the [catch], and so is the error of
    line 96. *)
Definition editImageWithAI (settled : Error + GenerateContentResponse)
    : Error + string :=
  match settled with
  | inl e => inl e
  | inr response =>
      let part :=
        (((candidates response ≫= head) ≫= content) ≫= parts) ≫= head in
      match (part ≫= inlineData) ≫= (λ d, truthyString (data d)) with
      | Some bytes => inr ("data:image/png;base64," +:+ bytes)
      | None => inl NoImageData
      end
  end.

(** Lines 156-179 of [generateSticker], from the settled request on. *)
Definition generateSticker (settled : Error + GenerateImagesResponse)
    : Error + string :=
  match settled with
  | inl e => inl e
  | inr response =>
      let generatedImage := (generatedImages response ≫= head) ≫= image in
      match generatedImage ≫= (λ i, truthyString (imageBytes i)) with
      | Some bytes => inr ("data:image/png;base64," +:+ bytes)
      | None => inl NoStickerGenerated
      end
  end.

End Service.

(** ** Captions in the owner ([src/App.tsx], lines 232-241) *)

Module Caption.

(** The characters the pattern [/,|\n|\?|\!/] matches. *)
Definition isSeparator (a : ascii) : bool :=
  bool_decide (a = ","%char) || bool_decide (a = "010"%char)
  || bool_decide (a = "?"%char) || bool_decide (a = "!"%char).

(** [s.split(pattern)] for a pattern that matches single characters: the
    pieces between the matches, empty ones kept. *)
Fixpoint splitOn (sep : ascii → bool) (s : string) : list string :=
  match s with
  | EmptyString => [""]
  | String a rest =>
      if sep a then "" :: splitOn sep rest
      else match splitOn sep rest with
           | w :: ws => String a w :: ws
           | [] => [String a ""]
           end
  end.

(** [parts.join(' ')] *)
Fixpoint join (l : list string) : string :=
  match l with
  | [] => ""
  | [w] => w
  | w :: rest => w +:+ " " +:+ join rest
  end.

(** White space of [trim] among the ASCII characters: tab, line feed,
    vertical tab, form feed, carriage return and space. *)
Definition isWhiteSpace (a : ascii) : bool :=
  let n := N_of_ascii a in ((9 <=? n) && (n <=? 13) || (n =? 32))%N.

Fixpoint trimStart (s : string) : string :=
  match s with
  | EmptyString => EmptyString
  | String a rest => if isWhiteSpace a then trimStart rest else s
  end.

Fixpoint trimEnd (s : string) : string :=
  match s with
  | EmptyString => EmptyString
  | String a rest =>
      match trimEnd rest with
      | EmptyString => if isWhiteSpace a then EmptyString else String a ""
      | rest' => String a rest'
      end
  end.

Definition trim (s : string) : string := trimEnd (trimStart s).

(** [applyCaption]: the top and the bottom text it sets. A caption is a
    string of ASCII characters, whose [length] is the number of its
    characters. *)
Definition applyCaption (caption : string) : string * string :=
  let parts := splitOn isSeparator caption in
  if bool_decide (1 < length parts)%nat
     && bool_decide (30 < String.length caption)%nat
  then
    let mid := (length parts / 2)%nat in
    (trim (join (take (mid + 1) parts)), trim (join (drop (mid + 1) parts)))
  else ("", caption).

End Caption.

(** ** Pointer events in sequence *)

Module Pointer.

(** A pointer event on the canvas, with the canvas geometry at that moment
    where the handler reads it. *)
Inductive event :=
| Down (ref : CanvasRef) (e : MouseEvent)
| Move (ref : CanvasRef) (e : MouseEvent)
| Up
| Leave.

Definition with_drag (r : Render) (drag : option string * Point) : Render :=
  {| imageSrc := imageSrc r; topText := topText r; bottomText := bottomText r;
     stickers := stickers r; draggingId := drag.1; dragOffset := drag.2 |}.

(** One event: the handler runs with the bindings of the current render; the
    next render has the drag state it set and the list it emitted. *)
Definition step (r : Render) (ev : event) : Render :=
  match ev with
  | Down ref e => with_drag r (handleMouseDown r ref e)
  | Move ref e =>
      with_stickers r (default (stickers r) (handleMouseMove r ref e))
  | Up => with_drag r (handleMouseUp r)
  | Leave => with_drag r (handleMouseLeave r)
  end.

Definition run (r : Render) (evs : list event) : Render := fold_left step evs r.

(** What a drag never changes of a sticker. *)
Definition fixedPart (s : Sticker.t)
    : string * string * float * float * float :=
  (Sticker.id s, Sticker.url s, Sticker.width s, Sticker.height s,
   Sticker.rotation s).

(** Pointer moves only. *)
Definition moves (l : list (CanvasRef * MouseEvent)) : list event :=
  (λ m, Move m.1 m.2) <$> l.

End Pointer.

(** The text the lines of a caption make up, one after the other. *)
Definition flatten (lines : list string) : string :=
  foldr String.append "" lines.

(** The drag target, if any, is the identifier of a sticker of the list. *)
Definition targetInList (r : Render) : Prop :=
  match draggingId r with
  | Some d => d ∈ Sticker.id <$> stickers r
  | None => True
  end.

(** The prefixes the pattern of [cleanBase64] matches. *)
Definition dataUrlPrefixes : list string :=
  ["data:image/png;base64,"; "data:image/jpeg;base64,";
   "data:image/webp;base64,"].

(** Some character of [s] satisfies [p]. *)
Fixpoint contains (p : ascii → bool) (s : string) : bool :=
  match s with
  | EmptyString => false
  | String a rest => p a || contains p rest
  end.

(** ** Data of the further examples *)

Module Sample.

(** A second sticker, as [handleGenerateSticker] makes it at clock reading
    2000, on top of the one of the scenario. *)
Definition two : Render :=
  with_stickers Scenario.idle
    (App.handleGenerateSticker 2000 "data:image/png;base64,BB"
       (stickers Scenario.idle)).

(** Pointer down on the sticker, a move, and the release. *)
Definition gesture : list Pointer.event :=
  [Pointer.Down Scenario.mounted Scenario.at_150_150;
   Pointer.Move Scenario.mounted Scenario.at_300_200].

(** The world after the first commit of the scenario. *)
Definition committed : World.t :=
  World.run (Scenario.monospace 40)
    [World.Commit Scenario.idle Scenario.pending].

(** The element the first commit creates for the sticker. *)
Definition element : Image.t :=
  {| Image.src := Sticker.url Scenario.sticker;
     Image.status := Image.Unavailable;
     Image.onload := Some Scenario.idle |}.

(** The image of every sticker has failed to load. *)
Definition failed (id : string) : option Image.t :=
  Some {| Image.src := "data:image/png;base64,AA";
          Image.status := Image.Broken;
          Image.onload := Some Scenario.idle |}.

(** The browser has the background decoded, and no sticker image. *)
Definition backgroundOnly (src : string) : option (Z * Z) :=
  if bool_decide (src = "meme.png") then Some (1600, 900)%Z else None.



(** The sticker arrives and the load of its image fails; then the same
    render is committed twice more. *)
Definition failedSession : list World.event :=
  [World.Commit Scenario.idle backgroundOnly;
   World.LoadError 0;
   World.Commit Scenario.idle backgroundOnly;
   World.Commit Scenario.idle backgroundOnly].

(** The 800 x 450 surface displayed 300 pixels wide. *)
Definition shown : CanvasRef :=
  Some (Scenario.surface,
        {| DOMRect.left := 0; DOMRect.top := 0;
           DOMRect.width := 300; DOMRect.height := 168.75 |}).

Definition client (cx cy : float) : MouseEvent :=
  {| clientX := cx; clientY := cy |}.

(** The sticker of the scenario dragged to the right, and to the left,
    on that display: its centre is at x = 253.99999999999997, and at
    x = -36.666666666666671. *)
Definition draggedRight : Render :=
  Pointer.run Scenario.idle
    [Pointer.Down shown (client 58 57); Pointer.Move shown (client 97 57);
     Pointer.Up].

Definition draggedLeft : Render :=
  Pointer.run Scenario.idle
    [Pointer.Down shown (client 75 57); Pointer.Move shown (client 5 57);
     Pointer.Up].

Definition short : string := "Hello, world!".
Definition long : string := "When the code works, but you do not know why".
Definition setup : string := "When the code finally works".
Definition punchline : string := " but nobody knows why".

End Sample.

(** * Properties *)

(** ** Pointer-down: hit testing *)

Lemma hitTest_prefix l k pos i :
  (i ≤ length l)%nat → hitTest (l ++ k) pos i = hitTest l pos i.
Proof.
  induction i as [|j IH]; intros Hi; simpl; [done|].
  rewrite lookup_app_l by lia.
  destruct (l !! j) as [s|]; [|done].
  destruct (hit pos s); [done|]. apply IH. lia.
Qed.

Lemma hitTest_miss l pos :
  Forall (λ t, hit pos t = false) l → hitTest l pos (length l) = None.
Proof.
  induction l as [|t l IH] using rev_ind; intros Hl; [done|].
  apply Forall_app in Hl as [Hl Ht]. rewrite Forall_singleton in Ht.
  rewrite length_app, Nat.add_1_r. simpl.
  rewrite lookup_app_r, Nat.sub_diag by lia. simpl. rewrite Ht.
  rewrite hitTest_prefix by lia. by apply IH.
Qed.

Lemma hitTest_skip l1 l2 pos :
  Forall (λ t, hit pos t = false) l2 →
  hitTest (l1 ++ l2) pos (length (l1 ++ l2)) = hitTest l1 pos (length l1).
Proof.
  induction l2 as [|t l2 IH] using rev_ind; intros Hl.
  - by rewrite app_nil_r.
  - apply Forall_app in Hl as [Hl Ht]. rewrite Forall_singleton in Ht.
    rewrite app_assoc, length_app, Nat.add_1_r. simpl.
    rewrite lookup_app_r, Nat.sub_diag by lia. simpl. rewrite Ht.
    rewrite hitTest_prefix by lia. by apply IH.
Qed.

Lemma hitTest_top l1 s l2 pos :
  hit pos s = true → Forall (λ t, hit pos t = false) l2 →
  hitTest (l1 ++ s :: l2) pos (length (l1 ++ s :: l2)) = Some s.
Proof.
  intros Hs Hl. rewrite (cons_middle s l1 l2), app_assoc.
  rewrite hitTest_skip by done.
  rewrite length_app, Nat.add_1_r. simpl.
  rewrite lookup_app_r, Nat.sub_diag by lia. simpl. by rewrite Hs.
Qed.

Lemma hitTest_fmap (g : Sticker.t → Sticker.t) l pos i :
  (∀ s, hit pos (g s) = hit pos s) →
  hitTest (g <$> l) pos i = g <$> hitTest l pos i.
Proof.
  intros Hg. induction i as [|j IH]; simpl; [done|].
  rewrite list_lookup_fmap. destruct (l !! j) as [s|]; simpl; [|done].
  rewrite Hg. by destruct (hit pos s).
Qed.

(** C2, as the code has it. Pointer-down tests the stickers from the last
    of the list (the one drawn on top) to the first. The box of a sticker
    is the four comparisons [s.x - s.width/2 <= p.x], [p.x <= s.x + s.width/2],
    [s.y - s.height/2 <= p.y] and [p.y <= s.y + s.height/2], each side
    computed in binary64. The last sticker of the list whose box contains the
    pointer becomes the drag target, with offset [(p.x - s.x, p.y - s.y)];
    when no box contains the pointer the drag state is left as it was, so no
    drag starts. The rotations do not matter: with any other rotations the
    handler does the same. *)
Theorem handleMouseDown_topmost_hit (r : Render) (ref : CanvasRef)
    (e : MouseEvent) :
  let pos := getMousePos ref e in
  let inside (s : Sticker.t) : bool :=
    (Sticker.x s - Sticker.width s / 2 <=? px pos)
    && (px pos <=? Sticker.x s + Sticker.width s / 2)
    && (Sticker.y s - Sticker.height s / 2 <=? py pos)
    && (py pos <=? Sticker.y s + Sticker.height s / 2) in
  (∀ l1 s l2,
     stickers r = l1 ++ s :: l2 →
     inside s = true →
     Forall (λ t, inside t = false) l2 →
     handleMouseDown r ref e
     = (Some (Sticker.id s),
        {| px := px pos - Sticker.x s; py := py pos - Sticker.y s |}))
  ∧ (Forall (λ t, inside t = false) (stickers r) →
     handleMouseDown r ref e = (draggingId r, dragOffset r))
  ∧ (∀ rot,
       handleMouseDown (with_stickers r (withRotation rot <$> stickers r))
         ref e
       = handleMouseDown r ref e).
Proof.
  intros pos inside.
  assert (inside = hit pos) as -> by reflexivity.
  split; [|split].
  - intros l1 s l2 Hl Hs Hmiss. unfold handleMouseDown. fold pos.
    by rewrite Hl, hitTest_top.
  - intros Hmiss. unfold handleMouseDown. fold pos.
    by rewrite hitTest_miss.
  - intros rot. unfold handleMouseDown. fold pos.
    cbn [stickers with_stickers draggingId dragOffset].
    rewrite length_fmap, hitTest_fmap by done.
    by destruct (hitTest (stickers r) pos (length (stickers r))).
Qed.

(** ** Pointer-move: dragging *)

Lemma with_xy_self s : Sticker.with_xy s (Sticker.x s) (Sticker.y s) = s.
Proof. by destruct s. Qed.

Lemma with_xy_twice s a b c d :
  Sticker.with_xy (Sticker.with_xy s a b) c d = Sticker.with_xy s c d.
Proof. done. Qed.

Lemma handleMouseMove_active r ref e d :
  draggingId r = Some d → d ≠ "" →
  handleMouseMove r ref e
  = Some (moved (draggingId r) (dragOffset r) (getMousePos ref e) (stickers r)).
Proof.
  intros Hd Hne. unfold handleMouseMove, JS.truthy. rewrite Hd.
  by rewrite bool_decide_eq_false_2.
Qed.

Lemma moved_lookup_dragged d offset pos l i s :
  l !! i = Some s → Sticker.id s = d →
  moved (Some d) offset pos l !! i
  = Some (Sticker.with_xy s (px pos - px offset) (py pos - py offset)).
Proof.
  intros Hi Hs. unfold moved. rewrite list_lookup_fmap, Hi. simpl.
  by rewrite bool_decide_eq_true_2 by congruence.
Qed.

Lemma dragMoves_snoc r moves m :
  dragMoves r (moves ++ [m])
  = default (dragMoves r moves)
      (handleMouseMove (with_stickers r (dragMoves r moves)) m.1 m.2).
Proof. unfold dragMoves. by rewrite fold_left_app. Qed.

Lemma dragMoves_dragged r d moves i s :
  draggingId r = Some d → d ≠ "" →
  stickers r !! i = Some s → Sticker.id s = d →
  ∃ a b, dragMoves r moves !! i = Some (Sticker.with_xy s a b).
Proof.
  intros Hd Hne Hi Hs.
  induction moves as [|m moves IH] using rev_ind.
  - exists (Sticker.x s), (Sticker.y s). by rewrite with_xy_self.
  - destruct IH as (a & b & IH). rewrite dragMoves_snoc.
    rewrite (handleMouseMove_active _ _ _ d) by done. simpl. rewrite Hd.
    eexists _, _. by rewrite (moved_lookup_dragged d _ _ _ i _ IH).
Qed.

Lemma with_xy_fixedPart s a b :
  Pointer.fixedPart (Sticker.with_xy s a b) = Pointer.fixedPart s.
Proof. reflexivity. Qed.

(** C3. While a drag on the sticker with identifier [d] is active, every
    pointer move emits a list in which that sticker has the centre
    [(p.x - o.x, p.y - o.y)], the pointer position minus the recorded
    offset, and is otherwise as it was. The pointer position [p] is the
    client position relative to the displayed rectangle multiplied by the
    ratio of the surface size to the displayed size. After any sequence of
    moves the centre is that of the last move: nothing of the earlier moves
    remains in it. *)
Theorem drag_centre_is_pointer_minus_offset (r : Render) (d : string) :
  draggingId r = Some d → d ≠ "" →
  (∀ canvas rect e i s,
     stickers r !! i = Some s → Sticker.id s = d →
     ∃ l' s',
       handleMouseMove r (Some (canvas, rect)) e = Some l'
       ∧ l' !! i = Some s'
       ∧ Sticker.x s'
         = (clientX e - DOMRect.left rect)
           * (JS.Number (Canvas.width canvas) / DOMRect.width rect)
           - px (dragOffset r)
       ∧ Sticker.y s'
         = (clientY e - DOMRect.top rect)
           * (JS.Number (Canvas.height canvas) / DOMRect.height rect)
           - py (dragOffset r)
       ∧ Pointer.fixedPart s' = Pointer.fixedPart s)
  ∧ (∀ moves ref e i s,
       stickers r !! i = Some s → Sticker.id s = d →
       ∃ s',
         dragMoves r (moves ++ [(ref, e)]) !! i = Some s'
         ∧ Sticker.x s' = px (getMousePos ref e) - px (dragOffset r)
         ∧ Sticker.y s' = py (getMousePos ref e) - py (dragOffset r)
         ∧ Pointer.fixedPart s' = Pointer.fixedPart s).
Proof.
  intros Hd Hne. split.
  - intros canvas rect e i s Hi Hs. eexists _, _. split.
    { by apply (handleMouseMove_active _ _ _ d). }
    split.
    { rewrite Hd. by apply moved_lookup_dragged. }
    done.
  - intros moves ref e i s Hi Hs.
    destruct (dragMoves_dragged r d moves i s Hd Hne Hi Hs) as (a & b & Hl).
    eexists. split.
    { rewrite dragMoves_snoc, (handleMouseMove_active _ _ _ d) by done.
      simpl. rewrite Hd.
      by rewrite (moved_lookup_dragged d _ _ _ i _ Hl). }
    done.
Qed.


(** ** Sticker identifiers *)

Lemma ids_moved dragging offset pos l :
  App.ids (moved dragging offset pos l) = App.ids l.
Proof.
  unfold App.ids, moved. rewrite <- list_fmap_compose.
  apply list_fmap_ext. intros i s _. simpl. by case_bool_decide.
Qed.

Lemma ids_step l ev :
  App.ids (App.step l ev)
  = match ev with
    | App.Generated now _ => App.ids l ++ [pretty now]
    | App.Removed id => filter (λ i, i ≠ id) (App.ids l)
    | App.Cleared => []
    | App.Dragged _ _ _ _ => App.ids l
    end.
Proof.
  destruct ev as [now b|id| |dragging offset ref e]; simpl.
  - unfold App.handleGenerateSticker, App.ids. by rewrite fmap_app.
  - unfold App.removeSticker, App.ids.
    induction l as [|s l IH]; [done|].
    rewrite fmap_cons, !filter_cons.
    repeat case_decide; try done; csimpl; by rewrite IH.
  - done.
  - unfold handleMouseMove. simpl.
    destruct (negb (JS.truthy dragging)); [done|]. simpl.
    apply (ids_moved dragging offset (getMousePos ref e) l).
Qed.

(** C9, at the failing input. The identifier of a new sticker is the clock
    reading [Date.now()] when its image arrives, and nothing compares it
    with the identifiers in the list. Two stickers that arrive at the same
    clock reading get the same identifier: the identifiers of the list are
    not pairwise distinct, although the two stickers differ, and removing
    one of them removes the other as well. Identifiers are stable: a step
    never rewrites one. *)
Theorem same_clock_reading_gives_one_identifier (now : Z) (a b : string)
    (l : list Sticker.t) :
  let l2 :=
    App.step (App.step l (App.Generated now a)) (App.Generated now b) in
  App.ids l2 = App.ids l ++ [pretty now; pretty now]
  ∧ ¬ NoDup (App.ids l2)
  ∧ (a ≠ b → App.newSticker now a ≠ App.newSticker now b)
  ∧ App.step l2 (App.Removed (pretty now))
    = App.step l (App.Removed (pretty now))
  ∧ (∀ k ev,
       App.ids (App.step k ev)
       = match ev with
         | App.Generated t _ => App.ids k ++ [pretty t]
         | App.Removed id => filter (λ i, i ≠ id) (App.ids k)
         | App.Cleared => []
         | App.Dragged _ _ _ _ => App.ids k
         end).
Proof.
  intros l2.
  assert (App.ids l2 = App.ids l ++ [pretty now; pretty now]) as Hids.
  { unfold l2. rewrite !ids_step. by rewrite <- app_assoc. }
  split; [done|]. split; [|split; [|split]].
  - rewrite Hids. intros (_ & _ & Hnd)%NoDup_app.
    apply NoDup_cons in Hnd as [Hin _]. apply Hin, list_elem_of_here.
  - intros Hab Heq. apply Hab. by injection Heq.
  - unfold l2. cbn [App.step]. unfold App.handleGenerateSticker, App.removeSticker.
    rewrite <- app_assoc, filter_app. cbn [app].
    rewrite filter_cons_False by (cbn; by intros []).
    rewrite filter_cons_False by (cbn; by intros []).
    by rewrite filter_nil, app_nil_r.
  - apply ids_step.
Qed.

(** ** Word wrap *)

Lemma append_cons a (s t : string) : String a s +:+ t = String a (s +:+ t).
Proof. reflexivity. Qed.

Lemma append_nil_l (s : string) : "" +:+ s = s.
Proof. reflexivity. Qed.

Lemma append_nil_r (s : string) : s +:+ "" = s.
Proof.
  induction s as [|a s IH]; [done|]. by rewrite append_cons, IH.
Qed.

Lemma append_assoc (s1 s2 s3 : string) :
  (s1 +:+ s2) +:+ s3 = s1 +:+ (s2 +:+ s3).
Proof.
  induction s1 as [|a s1 IH]; [done|]. by rewrite !append_cons, IH.
Qed.

Lemma split_nonempty s : Str.split s ≠ [].
Proof.
  destruct s as [|a s]; simpl; [done|].
  case_bool_decide; [done|]. by destruct (Str.split s).
Qed.

Lemma joined_cons acc w ws :
  joined acc (w :: ws) = joined ((acc +:+ w) +:+ " ") ws.
Proof. reflexivity. Qed.

Lemma joined_split acc s : joined acc (Str.split s) = (acc +:+ s) +:+ " ".
Proof.
  revert acc. induction s as [|a s IH]; intros acc; simpl.
  - done.
  - case_bool_decide as Ha.
    + subst a. rewrite joined_cons, IH, append_nil_r, !append_assoc.
      by rewrite append_cons, append_nil_l.
    + specialize (IH (acc +:+ String a "")).
      destruct (Str.split s) as [|w ws] eqn:Hs.
      { by destruct (split_nonempty s). }
      rewrite joined_cons in *.
      rewrite !append_assoc, !append_cons, append_nil_l in IH.
      by rewrite !append_assoc, !append_cons.
Qed.

Section WordWrap.
Variable measureText : string → string → float.
Variables (fnt : string) (maxWidth : float).

Lemma wrap_length words n line lines :
  (length lines + 1
   ≤ length (wrap measureText fnt maxWidth words n line lines))%nat.
Proof.
  revert n line lines.
  induction words as [|w ws IH]; intros n line lines; simpl.
  - rewrite length_app. simpl. lia.
  - destruct (_ && _).
    + specialize (IH (S n) (w +:+ " ") (lines ++ [line])).
      rewrite length_app in IH. simpl in IH. lia.
    + apply IH.
Qed.

Lemma wrap_fits words n line lines :
  (0 < n)%nat →
  Forall (fits measureText fnt maxWidth) lines →
  fits measureText fnt maxWidth line →
  Forall (λ w, fits measureText fnt maxWidth (w +:+ " ")) words →
  Forall (fits measureText fnt maxWidth)
    (wrap measureText fnt maxWidth words n line lines).
Proof.
  revert n line lines.
  induction words as [|w ws IH]; intros n line lines Hn Hlines Hline Hws; simpl.
  - apply Forall_app. by split; [|apply Forall_singleton].
  - apply Forall_cons in Hws as [Hw Hws].
    destruct (maxWidth <? measureText fnt ((line +:+ w) +:+ " ")) eqn:Htest;
      simpl.
    + rewrite bool_decide_eq_true_2 by done.
      apply IH; [lia| |done|done].
      apply Forall_app. by split; [|apply Forall_singleton].
    + apply IH; [lia|done|done|done].
Qed.

Lemma wrap_single words n line lines :
  (0 < n)%nat → words ≠ [] →
  length (wrap measureText fnt maxWidth words n line lines)
  = (length lines + 1)%nat →
  fits measureText fnt maxWidth (joined line words).
Proof.
  revert n line lines.
  induction words as [|w ws IH]; intros n line lines Hn Hne Hlen; [done|].
  simpl in Hlen.
  destruct (maxWidth <? measureText fnt ((line +:+ w) +:+ " ")) eqn:Htest;
    simpl in Hlen.
  - rewrite bool_decide_eq_true_2 in Hlen by done.
    pose proof (wrap_length ws (S n) (w +:+ " ") (lines ++ [line])) as Hge.
    rewrite length_app in Hge. simpl in Hge. lia.
  - destruct ws as [|w' ws'].
    + done.
    + apply (IH (S n) _ lines); [lia|done|done].
Qed.

(** C4, as the code has it. The loop measures and emits every line with
    the space it appends after each word. When the upper-cased caption so
    measured (followed by one space) is wider than the maximum line width,
    and no single word followed by one space is, the caption is broken into
    more than one line and no line is wider than the maximum. *)
Theorem wrapLines_breaks_within_bound (text : string) :
  (maxWidth <? measureText fnt (Str.toUpperCase text +:+ " ")) = true →
  Forall (λ w, (maxWidth <? measureText fnt (w +:+ " ")) = false)
    (Str.split (Str.toUpperCase text)) →
  (1 < length (wrapLines measureText fnt maxWidth text))%nat
  ∧ Forall (λ l, (maxWidth <? measureText fnt l) = false)
      (wrapLines measureText fnt maxWidth text).
Proof.
  intros Hwide Hwords. unfold wrapLines.
  pose proof (joined_split "" (Str.toUpperCase text)) as Hjoin.
  destruct (Str.split (Str.toUpperCase text)) as [|w ws] eqn:Hsplit.
  { by destruct (split_nonempty (Str.toUpperCase text)). }
  apply Forall_cons in Hwords as [Hw Hws].
  simpl. rewrite andb_false_r.
  rewrite joined_cons in Hjoin. rewrite !append_nil_l in *. split.
  - pose proof (wrap_length ws 1 (w +:+ " ") []) as Hge. simpl in Hge.
    destruct (decide (length (wrap measureText fnt maxWidth ws 1
                                (w +:+ " ") []) = 1%nat))
      as [Hone|]; [|lia].
    exfalso. destruct ws as [|w' ws'].
    + simpl in Hjoin. rewrite <- Hjoin in Hwide. congruence.
    + pose proof (wrap_single (w' :: ws') 1 (w +:+ " ") []
                    ltac:(lia) ltac:(done) Hone) as Hfit.
      unfold fits in Hfit. rewrite Hjoin in Hfit. congruence.
  - apply wrap_fits; [lia|done|done|done].
Qed.

End WordWrap.

(** ** Closed forms of the drawing loops *)

Lemma set_lineWidth_outline c :
  Ctx.set_lineWidth 2 c
  = Canvas.with_state (λ s,
      {| fillStyle := fillStyle s; strokeStyle := strokeStyle s;
         lineWidth := 2; textAlign := textAlign s; font := font s;
         lineJoin := lineJoin s; textBaseline := textBaseline s;
         transform := transform s |}) c.
Proof. reflexivity. Qed.

(** Reduce the projections of explicit context states. *)
Ltac state_simpl :=
  cbv [fillStyle strokeStyle lineWidth textAlign font lineJoin textBaseline
       transform].

(** Unfold the context operations on a canvas given by its fields. *)
Ltac canvas_simpl :=
  rewrite ?set_lineWidth_outline;
  cbv [Ctx.save Ctx.restore Ctx.translate Ctx.rotate Ctx.apply
       Ctx.set_fillStyle Ctx.set_strokeStyle Ctx.set_textAlign Ctx.set_font
       Ctx.set_lineJoin Ctx.set_textBaseline Ctx.strokeRect Ctx.strokeText
       Ctx.fillText Canvas.with_state Canvas.paint Canvas.erase
       Canvas.set_width Canvas.set_height
       Canvas.width Canvas.height Canvas.state Canvas.stack Canvas.surface
       fillStyle strokeStyle lineWidth textAlign font lineJoin textBaseline
       transform andThen].

(** The pass of a sticker whose image is not broken returns. *)
Lemma drawSticker_returns dragging images c s :
  broken images s = false →
  drawSticker dragging images c s
  = Returned
      {| Canvas.width := Canvas.width c; Canvas.height := Canvas.height c;
         Canvas.state := Canvas.state c; Canvas.stack := Canvas.stack c;
         Canvas.surface :=
           Canvas.surface c
           ++ stickerOps dragging images (Canvas.state c) s |}.
Proof.
  unfold broken, drawSticker, stickerOps. destruct c as [w h st stk ops].
  cbn [Canvas.width Canvas.height Canvas.state Canvas.stack Canvas.surface].
  destruct (images (Sticker.id s)) as [img|]; [|by rewrite app_nil_r].
  intros Hb. destruct (Image.complete img); [|by rewrite app_nil_r].
  unfold Ctx.drawImage.
  destruct (Image.status img); [| |discriminate Hb];
    destruct (Image.usable img); case_bool_decide; cbn [andThen];
    canvas_simpl; by rewrite <- ?app_assoc, ?app_nil_r.
Qed.

(** The pass of a sticker whose image is broken throws after [save],
    [translate] and [rotate], before anything is painted or restored. *)
Lemma drawSticker_throws dragging images c s :
  broken images s = true →
  drawSticker dragging images c s
  = Threw InvalidStateError
      {| Canvas.width := Canvas.width c; Canvas.height := Canvas.height c;
         Canvas.state :=
           Ctx.apply (Rotate (Sticker.rotation s * JS.Math_PI / 180))
             (Ctx.apply (Translate (Sticker.x s) (Sticker.y s))
                (Canvas.state c));
         Canvas.stack := Canvas.state c :: Canvas.stack c;
         Canvas.surface := Canvas.surface c |}.
Proof.
  unfold broken, drawSticker. destruct c as [w h st stk ops].
  destruct (images (Sticker.id s)) as [img|]; [|done].
  unfold Image.complete, Ctx.drawImage.
  destruct (Image.status img); [done|done|]. intros _.
  rewrite orb_true_r. reflexivity.
Qed.

Lemma forEach_app {A} (body : Canvas.t → A → Outcome) l1 l2 c :
  forEach body (l1 ++ l2) c = andThen (forEach body l1 c) (forEach body l2).
Proof.
  revert c. induction l1 as [|a l1 IH]; intros c; [done|].
  cbn [app forEach]. destruct (body c a) as [c'|e c']; [|done].
  cbn [andThen]. apply IH.
Qed.

Lemma forEach_returns dragging images l c :
  Forall (λ s, broken images s = false) l →
  forEach (drawSticker dragging images) l c
  = Returned
      {| Canvas.width := Canvas.width c; Canvas.height := Canvas.height c;
         Canvas.state := Canvas.state c; Canvas.stack := Canvas.stack c;
         Canvas.surface :=
           Canvas.surface c
           ++ flat_map (stickerOps dragging images (Canvas.state c)) l |}.
Proof.
  intros Hl. revert c. induction Hl as [|s l Hs Hl IH]; intros c.
  - cbn [forEach flat_map]. rewrite app_nil_r. by destruct c.
  - cbn [forEach flat_map]. rewrite drawSticker_returns by done.
    cbn [andThen]. rewrite IH.
    cbn [Canvas.width Canvas.height Canvas.state Canvas.stack Canvas.surface].
    by rewrite <- app_assoc.
Qed.

Lemma forEach_throws dragging images l1 s l2 c :
  Forall (λ t, broken images t = false) l1 → broken images s = true →
  forEach (drawSticker dragging images) (l1 ++ s :: l2) c
  = Threw InvalidStateError
      {| Canvas.width := Canvas.width c; Canvas.height := Canvas.height c;
         Canvas.state :=
           Ctx.apply (Rotate (Sticker.rotation s * JS.Math_PI / 180))
             (Ctx.apply (Translate (Sticker.x s) (Sticker.y s))
                (Canvas.state c));
         Canvas.stack := Canvas.state c :: Canvas.stack c;
         Canvas.surface :=
           Canvas.surface c
           ++ flat_map (stickerOps dragging images (Canvas.state c)) l1 |}.
Proof.
  intros Hl Hs. rewrite forEach_app, forEach_returns by done.
  cbn [andThen forEach]. by rewrite drawSticker_throws.
Qed.

(** Either no sticker of the list has a broken image, or there is a first
    one that has. *)
Lemma first_broken images (l : list Sticker.t) :
  Forall (λ s, broken images s = false) l
  ∨ ∃ l1 s l2, l = l1 ++ s :: l2
               ∧ Forall (λ t, broken images t = false) l1
               ∧ broken images s = true.
Proof.
  induction l as [|s l IH]; [by left|].
  destruct (broken images s) eqn:Hs.
  - right. exists [], s, l. by repeat split.
  - destruct IH as [Hl|(l1 & t & l2 & -> & Hl1 & Ht)].
    + left. by apply Forall_cons.
    + right. exists (s :: l1), t, l2. repeat split; [|done].
      by apply Forall_cons.
Qed.

Lemma drawLines_closed lines i x currentY lineHeight c :
  drawLines lines i x currentY lineHeight c
  = {| Canvas.width := Canvas.width c; Canvas.height := Canvas.height c;
       Canvas.state := Canvas.state c; Canvas.stack := Canvas.stack c;
       Canvas.surface :=
         Canvas.surface c
         ++ lineOps (Canvas.state c) lines i x currentY lineHeight |}.
Proof.
  revert i c. induction lines as [|l lines IH]; intros i c; simpl.
  - rewrite app_nil_r. by destruct c.
  - rewrite IH. simpl. by rewrite <- !app_assoc.
Qed.

Section RenderingFacts.
Variable measureText : string → string → float.

Lemma drawText_closed fontSize text y b c :
  drawText measureText fontSize text y b c
  = {| Canvas.width := Canvas.width c; Canvas.height := Canvas.height c;
       Canvas.state := textState text b (Canvas.state c);
       Canvas.stack := Canvas.stack c;
       Canvas.surface :=
         Canvas.surface c
         ++ textOps measureText (Canvas.width c) fontSize text y b
              (Canvas.state c) |}.
Proof.
  unfold drawText, textState, textOps.
  case_bool_decide; [rewrite app_nil_r; by destruct c|].
  rewrite drawLines_closed. by destruct c.
Qed.

Lemma drawCaptions_closed r c :
  drawCaptions measureText r c
  = {| Canvas.width := Canvas.width c; Canvas.height := Canvas.height c;
       Canvas.state := frameState r (Canvas.width c) (Canvas.state c);
       Canvas.stack := Canvas.stack c;
       Canvas.surface :=
         Canvas.surface c
         ++ textOps measureText (Canvas.width c)
              (JS.Math_floor (JS.Number (Canvas.width c) * 0.1)) (topText r)
              (JS.Number (Canvas.height c) * 0.05) "top"
              (styled (Canvas.width c) (Canvas.state c))
         ++ textOps measureText (Canvas.width c)
              (JS.Math_floor (JS.Number (Canvas.width c) * 0.1))
              (bottomText r) (JS.Number (Canvas.height c) * 0.95) "bottom"
              (textState (topText r) "top"
                 (styled (Canvas.width c) (Canvas.state c))) |}.
Proof.
  unfold drawCaptions. rewrite !drawText_closed.
  destruct c as [w h st stk ops].
  unfold Ctx.set_lineWidth, frameState, styled, lineWidthFor, fontFor.
  destruct (is_finite _ && _); canvas_simpl; by rewrite <- app_assoc.
Qed.

(** The image element of the background was just created: it is not
    broken, and [drawImage] returns. *)
Lemma background_status r decoded :
  Image.status (background r decoded) = Image.requested decoded.
Proof. unfold background. by destruct (negb _). Qed.

Lemma drawImage_background r decoded dx dy dw dh c :
  Ctx.drawImage (background r decoded) dx dy dw dh c
  = Returned
      {| Canvas.width := Canvas.width c; Canvas.height := Canvas.height c;
         Canvas.state := Canvas.state c; Canvas.stack := Canvas.stack c;
         Canvas.surface :=
           Canvas.surface c
           ++ (if Image.usable (background r decoded)
               then [OpDrawImage (Image.src (background r decoded))
                       dx dy dw dh (transform (Canvas.state c))]
               else []) |}.
Proof.
  unfold Ctx.drawImage. rewrite background_status.
  destruct c as [w h st stk ops].
  destruct decoded as [size|]; cbn [Image.requested];
    destruct (Image.usable _); canvas_simpl; by rewrite ?app_nil_r.
Qed.

(** A call in which no sticker image is broken returns: it is the
    preparation step followed by one frame. *)
Lemma drawCanvas_returns r decoded images c :
  Forall (λ s, broken images s = false) (stickers r) →
  drawCanvas measureText r decoded images c
  = Returned
      (let c0 := prepare (background r decoded) c in
       {| Canvas.width := Canvas.width c0; Canvas.height := Canvas.height c0;
          Canvas.state := frameState r (Canvas.width c0) (Canvas.state c0);
          Canvas.stack := Canvas.stack c0;
          Canvas.surface :=
            Canvas.surface c0
            ++ frameOps measureText r (background r decoded) images
                 (Canvas.width c0) (Canvas.height c0) (Canvas.state c0) |}).
Proof.
  intros Hl. unfold drawCanvas. cbv zeta.
  rewrite drawImage_background. cbn [andThen].
  rewrite forEach_returns by done. cbn [andThen].
  rewrite drawCaptions_closed. unfold frameOps.
  destruct (prepare (background r decoded) c) as [w h st stk ops].
  cbn [Canvas.width Canvas.height Canvas.state Canvas.stack Canvas.surface].
  by rewrite <- !app_assoc.
Qed.

(** A call that meets a sticker whose image is broken throws there: the
    context keeps the saved state and the transform of that pass, and the
    surface what was painted before it. *)
Lemma drawCanvas_throws r decoded images c l1 s l2 :
  stickers r = l1 ++ s :: l2 →
  Forall (λ t, broken images t = false) l1 → broken images s = true →
  drawCanvas measureText r decoded images c
  = Threw InvalidStateError
      (let c0 := prepare (background r decoded) c in
       {| Canvas.width := Canvas.width c0; Canvas.height := Canvas.height c0;
          Canvas.state :=
            Ctx.apply (Rotate (Sticker.rotation s * JS.Math_PI / 180))
              (Ctx.apply (Translate (Sticker.x s) (Sticker.y s))
                 (Canvas.state c0));
          Canvas.stack := Canvas.state c0 :: Canvas.stack c0;
          Canvas.surface :=
            Canvas.surface c0
            ++ (if Image.usable (background r decoded)
                then [OpDrawImage (Image.src (background r decoded)) 0 0
                        (JS.Number (Canvas.width c0))
                        (JS.Number (Canvas.height c0))
                        (transform (Canvas.state c0))]
                else [])
            ++ flat_map (stickerOps (draggingId r) images (Canvas.state c0))
                 l1 |}).
Proof.
  intros Hr Hl Hs. unfold drawCanvas. cbv zeta.
  rewrite drawImage_background. cbn [andThen].
  rewrite Hr, forEach_throws by done. cbn [andThen].
  destruct (prepare (background r decoded) c) as [w h st stk ops].
  cbn [Canvas.width Canvas.height Canvas.state Canvas.stack Canvas.surface].
  by rewrite <- !app_assoc.
Qed.

Lemma drawCanvas_Returned r decoded images c c' :
  drawCanvas measureText r decoded images c = Returned c' →
  Forall (λ s, broken images s = false) (stickers r).
Proof.
  intros Hret.
  destruct (first_broken images (stickers r))
    as [Hl|(l1 & s & l2 & Hr & Hl1 & Hs)]; [done|].
  by rewrite (drawCanvas_throws _ _ _ _ _ _ _ Hr Hl1 Hs) in Hret.
Qed.

Lemma drawCanvas_Threw r decoded images c e c' :
  drawCanvas measureText r decoded images c = Threw e c' →
  ∃ l1 s l2, stickers r = l1 ++ s :: l2
             ∧ Forall (λ t, broken images t = false) l1
             ∧ broken images s = true.
Proof.
  intros Hthrew.
  destruct (first_broken images (stickers r)) as [Hl|Hex]; [|done].
  by rewrite drawCanvas_returns in Hthrew.
Qed.

End RenderingFacts.

(** ** Preparation of the surface *)

(** The preparation step reads the size of the image and nothing else. *)
Lemma prepare_status img img' c :
  Image.status img = Image.status img' → prepare img c = prepare img' c.
Proof.
  unfold prepare, Image.width, Image.height. by intros ->.
Qed.

Lemma prepare_background r decoded c :
  prepare (background r decoded) c
  = prepare {| Image.src := ""; Image.status := Image.requested decoded;
               Image.onload := None |} c.
Proof. apply prepare_status, background_status. Qed.

Lemma prepare_resized img c :
  needsResize img c = true → prepare img c = sized img.
Proof. unfold needsResize, prepare. by intros ->. Qed.

Lemma leibniz_eqb_refl (f : float) : PrimFloat.Leibniz.eqb f f = true.
Proof. by apply FloatAxioms.Leibniz.eqb_spec. Qed.

Lemma prepare_cleared img c :
  needsResize img c = false → transform (Canvas.state c) = [] →
  prepare img c = Canvas.erase c.
Proof.
  unfold needsResize, prepare. intros -> Htr.
  unfold Ctx.clearRect, Ctx.covers.
  by rewrite bool_decide_eq_true_2, !leibniz_eqb_refl.
Qed.

(** Under a transform the rectangle that is cleared is not the surface:
    what was painted stays, and the clearing is one more operation. *)
Lemma prepare_under_transform img c :
  needsResize img c = false → transform (Canvas.state c) ≠ [] →
  prepare img c
  = Canvas.paint
      (OpClearRect 0 0 (JS.Number (Canvas.width c))
         (JS.Number (Canvas.height c)) (transform (Canvas.state c))) c.
Proof.
  unfold needsResize, prepare. intros -> Htr.
  unfold Ctx.clearRect, Ctx.covers.
  by rewrite bool_decide_eq_false_2.
Qed.

(** ** Rendering twice *)

Section Idempotence.
Variable measureText : string → string → float.

Lemma frameState_transform r w st :
  transform (frameState r w st) = transform st.
Proof.
  unfold frameState, textState.
  by destruct (bool_decide (topText r = "")), (bool_decide (bottomText r = "")).
Qed.

Lemma lineWidthFor_idem w old :
  lineWidthFor w (lineWidthFor w old) = lineWidthFor w old.
Proof. unfold lineWidthFor. by destruct (is_finite _ && _). Qed.

Lemma frameState_idem r w st :
  frameState r w (frameState r w st) = frameState r w st.
Proof.
  unfold frameState, textState.
  destruct (bool_decide (topText r = "")), (bool_decide (bottomText r = ""));
    unfold styled, withBaseline; state_simpl;
    rewrite ?lineWidthFor_idem; reflexivity.
Qed.

Lemma stickerOps_idle images st st' s :
  transform st = transform st' →
  stickerOps None images st s = stickerOps None images st' s.
Proof. unfold stickerOps. by intros ->. Qed.

Lemma frameOps_frameState r img images w h st :
  draggingId r = None →
  frameOps measureText r img images w h (frameState r w st)
  = frameOps measureText r img images w h st.
Proof.
  intros Hd. unfold frameOps. rewrite Hd, frameState_transform. f_equal.
  f_equal.
  { apply flat_map_ext. intros s. apply stickerOps_idle, frameState_transform. }
  unfold frameState, textOps, textState.
  destruct (bool_decide (topText r = "")), (bool_decide (bottomText r = ""));
    unfold styled, withBaseline; state_simpl;
    rewrite ?lineWidthFor_idem; reflexivity.
Qed.

Lemma drawCanvas_transform r decoded images c c' :
  drawCanvas measureText r decoded images c = Returned c' →
  transform (Canvas.state c) = [] →
  transform (Canvas.state c') = [].
Proof.
  intros Hret Htr. pose proof (drawCanvas_Returned _ _ _ _ _ _ Hret) as Hl.
  rewrite drawCanvas_returns in Hret by done. injection Hret as <-.
  cbv zeta. cbn [Canvas.state]. rewrite frameState_transform.
  destruct (needsResize (background r decoded) c) eqn:Hsize.
  - by rewrite prepare_resized.
  - by rewrite prepare_cleared.
Qed.

Lemma drawCanvas_stack r decoded images c c' :
  drawCanvas measureText r decoded images c = Returned c' →
  transform (Canvas.state c) = [] → Canvas.stack c = [] →
  Canvas.stack c' = [].
Proof.
  intros Hret Htr Hstk. pose proof (drawCanvas_Returned _ _ _ _ _ _ Hret) as Hl.
  rewrite drawCanvas_returns in Hret by done. injection Hret as <-.
  cbv zeta. cbn [Canvas.stack].
  destruct (needsResize (background r decoded) c) eqn:Hsize.
  - by rewrite prepare_resized.
  - by rewrite prepare_cleared.
Qed.

Lemma Drawn_settled c :
  Drawn measureText c →
  transform (Canvas.state c) = [] ∧ Canvas.stack c = [].
Proof.
  induction 1 as [|r decoded images c c' Hc [IHt IHs] Hret]; [done|].
  split.
  - by apply (drawCanvas_transform _ _ _ _ _ Hret).
  - by apply (drawCanvas_stack _ _ _ _ _ Hret).
Qed.

Lemma Drawn_transform c :
  Drawn measureText c → transform (Canvas.state c) = [].
Proof. by intros [? _]%Drawn_settled. Qed.

(** One frame on a cleared copy of its own result gives that result. *)
Lemma frame_again r img images w h st stk :
  draggingId r = None →
  {| Canvas.width := w; Canvas.height := h;
     Canvas.state := frameState r w (frameState r w st);
     Canvas.stack := stk;
     Canvas.surface :=
       [] ++ frameOps measureText r img images w h (frameState r w st) |}
  = {| Canvas.width := w; Canvas.height := h;
       Canvas.state := frameState r w st; Canvas.stack := stk;
       Canvas.surface := [] ++ frameOps measureText r img images w h st |}.
Proof.
  intros Hd. by rewrite frameState_idem, frameOps_frameState.
Qed.

(** X23. With no drag target and no sticker image whose load has failed,
    [drawCanvas] called again with the same render, the same background and
    the same sticker images on the canvas it has just drawn ends as the
    first call did and leaves that canvas as it is: the same dimensions, the
    same painted surface, the same context state. The canvas has the
    identity transform, as every canvas has on which no call has thrown. *)
Theorem drawCanvas_again_leaves_canvas (r : Render)
    (decoded : option (Z * Z)) (images : string → option Image.t)
    (c : Canvas.t) :
  transform (Canvas.state c) = [] → draggingId r = None →
  Forall (λ s, broken images s = false) (stickers r) →
  drawCanvas measureText r decoded images
    (after (drawCanvas measureText r decoded images c))
  = drawCanvas measureText r decoded images c.
Proof.
  intros Hc Hd Hl.
  assert (transform
            (Canvas.state (after (drawCanvas measureText r decoded images c)))
          = []) as Htr.
  { destruct (drawCanvas measureText r decoded images c) as [c'|e c'] eqn:Hc'.
    - by apply (drawCanvas_transform _ _ _ _ _ Hc').
    - by rewrite drawCanvas_returns in Hc'. }
  rewrite (drawCanvas_returns _ r decoded images (after _)) by done.
  set (img := background r decoded) in *.
  destruct (needsResize img
              (after (drawCanvas measureText r decoded images c)))
    eqn:Hsize2.
  - rewrite (prepare_resized _ _ Hsize2). cbv zeta.
    rewrite drawCanvas_returns by done. fold img. cbv zeta.
    destruct (needsResize img c) eqn:Hsize1.
    + by rewrite prepare_resized.
    + exfalso. rewrite drawCanvas_returns in Hsize2 by done.
      fold img in Hsize2. cbv zeta in Hsize2. cbn [after] in Hsize2.
      rewrite prepare_cleared in Hsize2 by done.
      unfold needsResize in *. simpl in Hsize2. congruence.
  - rewrite (prepare_cleared _ _ Hsize2 Htr). clear Hsize2 Htr.
    rewrite drawCanvas_returns by done. fold img. cbv zeta. cbn [after].
    destruct (needsResize img c) eqn:Hsize1.
    + rewrite prepare_resized by done. simpl. f_equal. by apply frame_again.
    + rewrite prepare_cleared by done. simpl. f_equal. by apply frame_again.
Qed.

(** C5, at the failing input. The image of the sticker has failed to
    load: the element is complete and broken. The first call of [drawCanvas]
    on the fresh canvas sizes the surface to 800 x 450, draws the background
    and throws in the pass of the sticker, after [save], [translate] and
    [rotate] and before [restore]. The second call, with the same render,
    background and images, clears and draws the background under the
    transform the first one left and throws again: the surface, the
    transform and the stack of saved states are not those the first call
    left. *)
Theorem drawCanvas_twice_with_broken_image :
  let o1 :=
    drawCanvas measureText Scenario.idle (Some (1600, 900)%Z) Sample.failed
      Canvas.fresh in
  let o2 :=
    drawCanvas measureText Scenario.idle (Some (1600, 900)%Z) Sample.failed
      (after o1) in
  let under := [Translate 150 150; Rotate 0] in
  o1 = Threw InvalidStateError (after o1)
  ∧ Canvas.surface (after o1) = [OpDrawImage "meme.png" 0 0 800 450 []]
  ∧ transform (Canvas.state (after o1)) = under
  ∧ length (Canvas.stack (after o1)) = 1%nat
  ∧ o2 = Threw InvalidStateError (after o2)
  ∧ Canvas.surface (after o2)
    = [OpDrawImage "meme.png" 0 0 800 450 [];
       OpClearRect 0 0 800 450 under;
       OpDrawImage "meme.png" 0 0 800 450 under]
  ∧ transform (Canvas.state (after o2)) = under ++ under
  ∧ length (Canvas.stack (after o2)) = 2%nat
  ∧ after o2 ≠ after o1.
Proof.
  intros o1 o2 under.
  assert (o1 = Threw InvalidStateError (after o1)) as H1 by by vm_compute.
  assert (o2 = Threw InvalidStateError (after o2)) as H2 by by vm_compute.
  repeat split; try done; by vm_compute.
Qed.

End Idempotence.

(** ** Surface size and the missing background *)

Section Frames.
Variable measureText : string → string → float.

Lemma clearRect_width rx ry rw rh c :
  Canvas.width (Ctx.clearRect rx ry rw rh c) = Canvas.width c.
Proof. unfold Ctx.clearRect. by destruct (Ctx.covers _ _ _ _ _). Qed.

Lemma clearRect_height rx ry rw rh c :
  Canvas.height (Ctx.clearRect rx ry rw rh c) = Canvas.height c.
Proof. unfold Ctx.clearRect. by destruct (Ctx.covers _ _ _ _ _). Qed.

(** The size of the canvas after a call is the size the preparation step
    gave it, whether the call returns or throws. *)
Lemma drawCanvas_width r decoded images c :
  Canvas.width (after (drawCanvas measureText r decoded images c))
  = Canvas.width (prepare (background r decoded) c).
Proof.
  destruct (first_broken images (stickers r))
    as [Hl|(l1 & s & l2 & Hr & Hl1 & Hs)].
  - by rewrite drawCanvas_returns.
  - by rewrite (drawCanvas_throws _ _ _ _ _ _ _ _ Hr Hl1 Hs).
Qed.

Lemma drawCanvas_height r decoded images c :
  Canvas.height (after (drawCanvas measureText r decoded images c))
  = Canvas.height (prepare (background r decoded) c).
Proof.
  destruct (first_broken images (stickers r))
    as [Hl|(l1 & s & l2 & Hr & Hl1 & Hs)].
  - by rewrite drawCanvas_returns.
  - by rewrite (drawCanvas_throws _ _ _ _ _ _ _ _ Hr Hl1 Hs).
Qed.

(** The example of the specification: 1600 x 900 gives 800 x 450. *)
Lemma drawCanvas_1600x900 r images :
  Canvas.width
    (after
       (drawCanvas measureText r (Some (1600, 900)%Z) images Canvas.fresh))
  = 800%Z
  ∧ Canvas.height
      (after
         (drawCanvas measureText r (Some (1600, 900)%Z) images Canvas.fresh))
    = 450%Z.
Proof.
  rewrite drawCanvas_width, drawCanvas_height, prepare_background.
  by vm_compute.
Qed.

(** C1, at the failing input. For a background 1078 pixels wide the scale
    [800 / 1078] and the product [1078 * scale] are rounded to binary64:
    the product is 799.9999999999999, and the canvas width, an integer,
    takes its integer part. The surface is 799 wide, not
    [min(1078, 800) = 800]. *)
Theorem drawCanvas_1078_wide_is_799 (r : Render)
    (images : string → option Image.t) :
  (JS.Number 1078 * JS.Math_min 1 (MAX_WIDTH / JS.Number 1078) <? 800) = true
  ∧ Canvas.width
      (after
         (drawCanvas measureText r (Some (1078, 600)%Z) images Canvas.fresh))
    = 799%Z
  ∧ Canvas.height
      (after
         (drawCanvas measureText r (Some (1078, 600)%Z) images Canvas.fresh))
    = 445%Z.
Proof.
  rewrite drawCanvas_width, drawCanvas_height, prepare_background.
  by vm_compute.
Qed.

(** For every natural width up to 4096 the surface is as wide as the image
    when the image is at most 800 wide, and 800 or 799 wide otherwise. *)
Lemma surface_width_up_to_4096 :
  forallb
    (λ w, let cw := Canvas.width
                      (sized {| Image.src := "";
                                Image.status := Image.Available (w, w);
                                Image.onload := None |}) in
          if (w <=? 800)%Z then (cw =? w)%Z
          else ((cw =? 800) || (cw =? 799))%Z)
    (seqZ 1 4096)
  = true.
Proof. by vm_compute. Qed.

(** An image element that is not decoded has the size 0 x 0: on the canvas
    that shows the frame of the scenario the preparation step resizes the
    surface to 0 x 0. *)
Lemma prepare_undecoded r :
  prepare (background r None) Scenario.drawn
  = {| Canvas.width := 0; Canvas.height := 0; Canvas.state := defaultState;
       Canvas.stack := []; Canvas.surface := [] |}.
Proof. rewrite prepare_background. by vm_compute. Qed.

Lemma usable_undecoded r : Image.usable (background r None) = false.
Proof. unfold Image.usable. by rewrite background_status. Qed.

(** C8, at the failing input. The canvas shows the 800 x 450 frame of the
    scenario, and [drawCanvas] runs for a render whose background is not
    decoded yet. The call registers itself as the load handler of the image
    (when the source is not empty), and does not stop there: it sizes the
    surface from the image, which is 0 x 0, so that the frame on display is
    gone and the canvas is 0 x 0, and it runs the sticker loop and the
    captions on that surface. *)
Theorem drawCanvas_undecoded_background (r : Render)
    (images : string → option Image.t) :
  Canvas.width Scenario.drawn = 800%Z
  ∧ Canvas.height Scenario.drawn = 450%Z
  ∧ length (Canvas.surface Scenario.drawn) = 6%nat
  ∧ Image.onload (background r None)
    = (if bool_decide (imageSrc r = "") then None else Some r)
  ∧ Canvas.width
      (after (drawCanvas measureText r None images Scenario.drawn)) = 0%Z
  ∧ Canvas.height
      (after (drawCanvas measureText r None images Scenario.drawn)) = 0%Z
  ∧ drawCanvas measureText r None images Scenario.drawn
    = andThen
        (forEach (drawSticker (draggingId r) images) (stickers r)
           {| Canvas.width := 0; Canvas.height := 0;
              Canvas.state := defaultState; Canvas.stack := [];
              Canvas.surface := [] |})
        (λ canvas, Returned (drawCaptions measureText r canvas)).
Proof.
  split; [by vm_compute|]. split; [by vm_compute|]. split; [by vm_compute|].
  split.
  { unfold background, Image.complete. cbn [Image.src Image.status].
    by destruct (bool_decide (imageSrc r = "")). }
  rewrite drawCanvas_width, drawCanvas_height, prepare_undecoded.
  split; [done|]. split; [done|].
  unfold drawCanvas. cbv zeta.
  rewrite drawImage_background, prepare_undecoded, usable_undecoded.
  reflexivity.
Qed.

End Frames.

(** ** Stickers without a decoded image *)

Section Omission.
Variable measureText : string → string → float.











End Omission.

(** ** The cache follows the sticker list *)

Lemma cleanup_fold_lookup (currentIds : gset string) (m : gmap string nat)
    (keys : list string) (k : string) :
  foldr (λ id acc, if bool_decide (id ∈ currentIds) then acc else delete id acc)
    m keys !! k
  = if bool_decide (k ∈ keys ∧ k ∉ currentIds) then None else m !! k.
Proof.
  induction keys as [|id keys IH]; cbn [foldr].
  - case_bool_decide as H; [|done]. by destruct H as [[]%elem_of_nil _].
  - destruct (bool_decide (id ∈ currentIds)) eqn:Hid.
    + apply bool_decide_eq_true in Hid. rewrite IH.
      repeat case_bool_decide; try done; set_solver.
    + apply bool_decide_eq_false in Hid.
      destruct (decide (k = id)) as [->|Hne].
      * rewrite lookup_delete_eq.
        by rewrite bool_decide_eq_true_2 by set_solver.
      * rewrite lookup_delete_ne, IH by done.
        repeat case_bool_decide; try done; set_solver.
Qed.

Lemma cleanup_lookup (currentIds : gset string) (m : gmap string nat) k :
  World.cleanup currentIds m !! k
  = if bool_decide (k ∈ currentIds) then m !! k else None.
Proof.
  unfold World.cleanup. rewrite cleanup_fold_lookup.
  repeat case_bool_decide; try done.
  - naive_solver.
  - destruct (m !! k) eqn:Hk; [|done].
    exfalso. apply H. split; [|done].
    apply elem_of_elements, elem_of_dom. by eexists.
Qed.

Lemma loadSticker_props r available w s :
  World.props (World.loadSticker r available w s) = World.props w.
Proof. unfold World.loadSticker. by destruct (World.cache w !! _). Qed.

Lemma loadSticker_dom r available w s :
  dom (World.cache (World.loadSticker r available w s))
  = dom (World.cache w) ∪ {[Sticker.id s]}.
Proof.
  unfold World.loadSticker.
  destruct (World.cache w !! Sticker.id s) eqn:Hc; simpl.
  - apply elem_of_dom_2 in Hc. set_solver.
  - rewrite dom_insert_L. set_solver.
Qed.

Lemma loadStickers_dom r available l w :
  dom (World.cache (fold_left (World.loadSticker r available) l w))
  = dom (World.cache w) ∪ list_to_set (Sticker.id <$> l).
Proof.
  revert w. induction l as [|s l IH]; intros w; simpl.
  - set_solver.
  - rewrite IH, loadSticker_dom. set_solver.
Qed.

Lemma stickersEffect_dom r available w :
  dom (World.cache (World.stickersEffect r available w))
  = list_to_set (Sticker.id <$> stickers r).
Proof.
  unfold World.stickersEffect. simpl. apply set_eq. intros k.
  rewrite elem_of_dom, cleanup_lookup.
  case_bool_decide as Hk.
  - rewrite <- elem_of_dom, loadStickers_dom. set_solver.
  - split; [by intros []|done].
Qed.

Lemma loadStickers_present r available l w :
  (∀ s, s ∈ l → is_Some (World.cache w !! Sticker.id s)) →
  fold_left (World.loadSticker r available) l w = w.
Proof.
  induction l as [|s l IH]; intros Hl; [done|]. simpl.
  destruct (Hl s) as [h Hh]; [apply list_elem_of_here|].
  unfold World.loadSticker at 2. rewrite Hh. apply IH.
  intros s' Hs'. apply Hl. by apply list_elem_of_further.
Qed.

Lemma cleanup_current (currentIds : gset string) (m : gmap string nat) :
  dom m ⊆ currentIds → World.cleanup currentIds m = m.
Proof.
  intros Hdom. apply map_eq. intros k. rewrite cleanup_lookup.
  destruct (bool_decide (k ∈ currentIds)) eqn:Hk; [done|].
  apply bool_decide_eq_false in Hk. symmetry. apply not_elem_of_dom.
  intros Hin. by apply Hk, Hdom.
Qed.

(** On a list with the identifiers of the one it ran for last, the effect
    changes nothing. *)
Lemma stickersEffect_again r available r' available' w :
  Sticker.id <$> stickers r' = Sticker.id <$> stickers r →
  World.stickersEffect r' available' (World.stickersEffect r available w)
  = World.stickersEffect r available w.
Proof.
  intros Hl. pose proof (stickersEffect_dom r available w) as Hdom.
  set (w1 := World.stickersEffect r available w) in *.
  unfold World.stickersEffect at 1.
  rewrite loadStickers_present.
  - rewrite cleanup_current; [by destruct w1|]. by rewrite Hdom, Hl.
  - intros s Hs. apply elem_of_dom. rewrite Hdom, <- Hl.
    apply elem_of_list_to_set. by apply list_elem_of_fmap_2.
Qed.

Lemma stickersEffect_props r available w :
  World.props (World.stickersEffect r available w) = World.props w.
Proof.
  unfold World.stickersEffect. simpl.
  generalize (stickers r). intros l. revert w.
  induction l as [|s l IH]; intros w; simpl; [done|].
  by rewrite IH, loadSticker_props.
Qed.

Section CacheInvariant.
Variable measureText : string → string → float.





Lemma removeSticker_ids id l :
  id ∉ Sticker.id <$> App.removeSticker id l.
Proof.
  unfold App.removeSticker. intros (s & Hs & Hin)%list_elem_of_fmap.
  apply list_elem_of_filter in Hin as [Hne _]. by apply Hne.
Qed.


End CacheInvariant.


(** * Worked examples *)

Section Examples.
Import Scenario.

(** On the sticker of the example the four comparisons of [hit] and the
    distance from the centre agree at every pixel of a 401 x 401 grid. *)
Example hit_is_withinHalfExtents_on_grid :
  forallb (λ i,
    forallb (λ j,
      Bool.eqb (hit {| px := JS.Number i; py := JS.Number j |} sticker)
        (withinHalfExtents {| px := JS.Number i; py := JS.Number j |}
           sticker))
      (seqZ 0 401))
    (seqZ 0 401)
  = true.
Proof. by vm_compute. Qed.

(** The pointer goes down on the sticker at its centre: the drag starts
    with a zero offset. *)
Lemma handleMouseDown_topmost_hit_example :
  handleMouseDown idle mounted at_150_150
  = (Some (Sticker.id sticker),
     {| px := px (getMousePos mounted at_150_150) - Sticker.x sticker;
        py := py (getMousePos mounted at_150_150) - Sticker.y sticker |}).
Proof.
  exact (proj1 (handleMouseDown_topmost_hit idle mounted at_150_150)
           [] sticker [] eq_refl eq_refl (Forall_nil_2 _)).
Defined.

(** C2 as stated fails: the box of the code is not the distance test of
    the claim. On the surface displayed 300 pixels wide, the sticker dragged
    to x = 253.99999999999997 is grabbed by a press at x = 304, which is
    farther than half its width from the centre; and the sticker dragged to
    x = -36.666666666666671 is not grabbed by a press at
    x = 13.333333333333332, which is within half its width. *)
Lemma box_is_not_half_extents :
  (Sticker.x <$> stickers Sample.draggedRight = [253.99999999999997]
   ∧ px (getMousePos Sample.shown (Sample.client 114 57)) = 304
   ∧ (handleMouseDown Sample.draggedRight Sample.shown
        (Sample.client 114 57)).1
     = Some "1000"
   ∧ withinHalfExtents (getMousePos Sample.shown (Sample.client 114 57))
       <$> stickers Sample.draggedRight
     = [false])
  ∧ (Sticker.x <$> stickers Sample.draggedLeft = [-36.666666666666671]
     ∧ px (getMousePos Sample.shown (Sample.client 5 57))
       = 13.333333333333332
     ∧ (handleMouseDown Sample.draggedLeft Sample.shown
          (Sample.client 5 57)).1
       = None
     ∧ withinHalfExtents (getMousePos Sample.shown (Sample.client 5 57))
         <$> stickers Sample.draggedLeft
       = [true]).
Proof. by vm_compute. Qed.

(** Two moves of the drag: the centre is that of the second. *)
Lemma drag_centre_example :
  ∃ s',
    dragMoves dragging ([(mounted, at_220_180)] ++ [(mounted, at_300_200)])
      !! 0%nat
    = Some s'
    ∧ Sticker.x s'
      = px (getMousePos mounted at_300_200) - px (dragOffset dragging)
    ∧ Sticker.y s'
      = py (getMousePos mounted at_300_200) - py (dragOffset dragging)
    ∧ Pointer.fixedPart s' = Pointer.fixedPart sticker.
Proof.
  assert ("1000" ≠ "") as Hne by discriminate.
  exact (proj2 (drag_centre_is_pointer_minus_offset dragging "1000"
                  eq_refl Hne)
           [(mounted, at_220_180)] mounted at_300_200 0%nat sticker
           eq_refl eq_refl).
Defined.

(** The example of the specification: a sticker at (150, 150) dragged with
    zero offset to (300, 200) is at exactly (300, 200). *)
Example drag_to_300_200 :
  dragMoves dragging [(mounted, at_220_180); (mounted, at_300_200)]
  = [Sticker.with_xy sticker 300 200].
Proof. by vm_compute. Qed.


(** C4 as stated fails: with every character one unit wide and a maximum
    of four units, neither word of "aaaa bbbb" alone is wider than the
    maximum, the caption is, and both lines the loop emits are wider. *)
Lemma word_alone_fits_but_line_does_not :
  (4 <? monospace 1 "" (Str.toUpperCase "aaaa bbbb")) = true
  ∧ Forall (λ w, (4 <? monospace 1 "" w) = false)
      (Str.split (Str.toUpperCase "aaaa bbbb"))
  ∧ wrapLines (monospace 1) "" 4 "aaaa bbbb" = ["AAAA "; "BBBB "]
  ∧ ¬ Forall (λ l, (4 <? monospace 1 "" l) = false)
        (wrapLines (monospace 1) "" 4 "aaaa bbbb").
Proof.
  split; [by vm_compute|]. split; [by repeat constructor|].
  split; [by vm_compute|].
  intros [Hline _]%Forall_cons. vm_compute in Hline. discriminate.
Qed.

Lemma wrapLines_example :
  (1 < length (wrapLines (monospace 1) "" 5 "aaaa bbbb"))%nat
  ∧ Forall (λ l, (5 <? monospace 1 "" l) = false)
      (wrapLines (monospace 1) "" 5 "aaaa bbbb").
Proof.
  apply (wrapLines_breaks_within_bound (monospace 1) "" 5 "aaaa bbbb").
  - by vm_compute.
  - by repeat constructor.
Defined.

(** With a drag target two frames in succession can differ: the outline is
    stroked with the line join the context holds, the default one right
    after a resize and the one set for the captions afterwards. *)
Example outline_differs_after_resize :
  drawCanvas (monospace 40) dragging (Some (1600, 900)%Z) loaded
    (after
       (drawCanvas (monospace 40) dragging (Some (1600, 900)%Z) loaded
          Canvas.fresh))
  ≠ drawCanvas (monospace 40) dragging (Some (1600, 900)%Z) loaded
      Canvas.fresh.
Proof.
  intros Heq%(f_equal (λ o, Canvas.surface (after o) !! 2%nat)).
  vm_compute in Heq. discriminate.
Qed.

(** On the canvas that shows the frame of 800 x 450, the call whose
    background is not decoded returns, and leaves a canvas of width 0 on
    which the sticker and the captions were painted. *)
Example undecoded_background_is_not_skipped :
  Canvas.width drawn = 800%Z
  ∧ drawCanvas (monospace 40) idle None loaded drawn
    = Returned (after (drawCanvas (monospace 40) idle None loaded drawn))
  ∧ Canvas.width (after (drawCanvas (monospace 40) idle None loaded drawn))
    = 0%Z
  ∧ length
      (Canvas.surface
         (after (drawCanvas (monospace 40) idle None loaded drawn)))
    = 11%nat.
Proof. by vm_compute. Qed.


(** The sticker is removed while its image loads; the load handler then
    draws the list that still contains it, and nothing of it is painted. *)
Example stale_load_paints_no_sticker :
  World.cache (World.run (monospace 40) session) = ∅
  ∧ Forall (λ op, match op with
                  | OpDrawImage _ _ _ _ _ _ => False
                  | _ => True
                  end)
      (Canvas.surface (World.canvas (World.run (monospace 40) session))).
Proof. split; [by vm_compute|]. vm_compute. by repeat constructor. Qed.

(** In a session: once the load of the sticker image has failed, two
    commits of the same render in succession leave different canvases. *)
Example failed_load_session :
  World.stickerImages (World.run (monospace 40) (take 2 Sample.failedSession))
    "1000"
  = Some {| Image.src := "data:image/png;base64,AA";
            Image.status := Image.Broken; Image.onload := Some idle |}
  ∧ length
      (Canvas.stack
         (World.canvas
            (World.run (monospace 40) (take 3 Sample.failedSession))))
    = 1%nat
  ∧ length
      (Canvas.stack
         (World.canvas (World.run (monospace 40) Sample.failedSession)))
    = 2%nat
  ∧ length
      (Canvas.surface
         (World.canvas
            (World.run (monospace 40) (take 3 Sample.failedSession))))
    = 1%nat
  ∧ length
      (Canvas.surface
         (World.canvas (World.run (monospace 40) Sample.failedSession)))
    = 3%nat.
Proof. by vm_compute. Qed.


End Examples.

(** * Further properties *)

(** ** Pointer events in sequence *)

Lemma hitTest_Some l pos i s :
  hitTest l pos i = Some s →
  ∃ j, (j < i)%nat ∧ l !! j = Some s ∧ hit pos s = true
       ∧ ∀ k t, (j < k < i)%nat → l !! k = Some t → hit pos t = false.
Proof.
  induction i as [|i IH]; simpl; [done|].
  destruct (l !! i) as [t|] eqn:Hi; [|done].
  destruct (hit pos t) eqn:Ht.
  - intros [= ->]. exists i. repeat split; [lia|done|done|]. intros k u Hk. lia.
  - intros (j & Hj & Hs & Hhit & Hmiss)%IH.
    exists j. repeat split; [lia|done|done|].
    intros k u Hk Hu. destruct (decide (k = i)) as [->|].
    + congruence.
    + apply (Hmiss k); [lia|done].
Qed.

Lemma hitTest_Some_split l pos s :
  hitTest l pos (length l) = Some s →
  ∃ l1 l2, l = l1 ++ s :: l2 ∧ hit pos s = true
           ∧ Forall (λ t, hit pos t = false) l2.
Proof.
  intros (j & Hj & Hs & Hhit & Hmiss)%hitTest_Some.
  exists (take j l), (drop (S j) l). split; [|split; [done|]].
  - by rewrite take_drop_middle.
  - apply Forall_lookup. intros k t Hk. rewrite lookup_drop in Hk.
    apply (Hmiss (S j + k)%nat); [|done].
    apply lookup_lt_Some in Hk. lia.
Qed.

(** X1. A drag starts only on a sticker under the pointer: when no drag is
    active and pointer-down sets a drag target, the list holds a sticker with
    that identifier whose box contains the pointer, no sticker after it in
    the list does, and the recorded offset is the pointer minus its
    centre. *)
Theorem handleMouseDown_starts_only_on_hit (r : Render) (ref : CanvasRef)
    (e : MouseEvent) (d : string) :
  draggingId r = None →
  (handleMouseDown r ref e).1 = Some d →
  ∃ l1 s l2,
    stickers r = l1 ++ s :: l2
    ∧ Sticker.id s = d
    ∧ hit (getMousePos ref e) s = true
    ∧ Forall (λ t, hit (getMousePos ref e) t = false) l2
    ∧ (handleMouseDown r ref e).2
      = {| px := px (getMousePos ref e) - Sticker.x s;
           py := py (getMousePos ref e) - Sticker.y s |}.
Proof.
  intros Hidle. unfold handleMouseDown.
  destruct (hitTest (stickers r) (getMousePos ref e) (length (stickers r)))
    as [s|] eqn:Hhit; simpl.
  - intros [= <-]. apply hitTest_Some_split in Hhit as (l1 & l2 & Hl & Hs & Hl2).
    by exists l1, s, l2.
  - congruence.
Qed.

Lemma fixedPart_handleMouseMove r ref e l' :
  handleMouseMove r ref e = Some l' →
  Pointer.fixedPart <$> l' = Pointer.fixedPart <$> stickers r.
Proof.
  unfold handleMouseMove. destruct (negb _); [done|]. intros [= <-].
  rewrite <- list_fmap_compose. apply list_fmap_ext. intros i s _. simpl.
  by destruct (bool_decide _).
Qed.

Lemma fixedPart_step r ev :
  Pointer.fixedPart <$> stickers (Pointer.step r ev)
  = Pointer.fixedPart <$> stickers r.
Proof.
  destruct ev as [ref e|ref e| |]; try done. simpl.
  destruct (handleMouseMove r ref e) as [l'|] eqn:Hmove; [|done].
  by apply (fixedPart_handleMouseMove r ref e).
Qed.

Lemma captions_step r ev :
  imageSrc (Pointer.step r ev) = imageSrc r
  ∧ topText (Pointer.step r ev) = topText r
  ∧ bottomText (Pointer.step r ev) = bottomText r.
Proof. by destruct ev. Qed.

Lemma fixedPart_run r evs :
  Pointer.fixedPart <$> stickers (Pointer.run r evs)
  = Pointer.fixedPart <$> stickers r.
Proof.
  unfold Pointer.run. revert r.
  induction evs as [|ev evs IH]; intros r; [done|]. simpl.
  by rewrite IH, fixedPart_step.
Qed.

(** X2. Whatever pointer events arrive in whatever order, the sticker list
    keeps its length and order, and every sticker keeps its identifier, url,
    width, height and rotation: pointer events move centres and do nothing
    else to the composition. The background and the captions stay too. *)
Theorem pointer_events_only_move_centres (r : Render)
    (evs : list Pointer.event) :
  Pointer.fixedPart <$> stickers (Pointer.run r evs)
  = Pointer.fixedPart <$> stickers r
  ∧ imageSrc (Pointer.run r evs) = imageSrc r
  ∧ topText (Pointer.run r evs) = topText r
  ∧ bottomText (Pointer.run r evs) = bottomText r.
Proof.
  split; [apply fixedPart_run|].
  unfold Pointer.run. revert r.
  induction evs as [|ev evs IH]; intros r; [done|]. simpl.
  destruct (IH (Pointer.step r ev)) as (Hi & Ht & Hb).
  destruct (captions_step r ev) as (Hi' & Ht' & Hb').
  by rewrite Hi, Ht, Hb, Hi', Ht', Hb'.
Qed.

Lemma ids_of_fixedPart (l l' : list Sticker.t) :
  Pointer.fixedPart <$> l = Pointer.fixedPart <$> l' →
  Sticker.id <$> l = Sticker.id <$> l'.
Proof.
  intros Heq.
  assert (∀ k : list Sticker.t,
            Sticker.id <$> k = (λ p, p.1.1.1.1) <$> (Pointer.fixedPart <$> k))
    as Hid.
  { intros k. rewrite <- list_fmap_compose. by apply list_fmap_ext. }
  by rewrite !Hid, Heq.
Qed.

Lemma targetInList_step r ev :
  targetInList r → targetInList (Pointer.step r ev).
Proof.
  unfold targetInList. intros Hr.
  destruct ev as [ref e|ref e| |]; [| |done|done].
  - simpl. unfold handleMouseDown.
    destruct (hitTest _ _ _) as [s|] eqn:Hhit; simpl; [|done].
    apply hitTest_Some_split in Hhit as (l1 & l2 & -> & _).
    rewrite fmap_app, fmap_cons. apply elem_of_app. right.
    apply list_elem_of_here.
  - pose proof (fixedPart_step r (Pointer.Move ref e)) as Hfix.
    apply ids_of_fixedPart in Hfix.
    change (draggingId (Pointer.step r (Pointer.Move ref e)))
      with (draggingId r).
    destruct (draggingId r); [|done]. by rewrite Hfix.
Qed.

(** X3. From a state without a drag, after any sequence of pointer events
    the drag target is either none or the identifier of a sticker that is in
    the list. *)
Theorem drag_target_is_in_list (r : Render) (evs : list Pointer.event) :
  draggingId r = None →
  match draggingId (Pointer.run r evs) with
  | Some d => d ∈ Sticker.id <$> stickers (Pointer.run r evs)
  | None => True
  end.
Proof.
  intros Hidle. assert (targetInList r) as Hr.
  { unfold targetInList. by rewrite Hidle. }
  clear Hidle. unfold Pointer.run. revert r Hr.
  induction evs as [|ev evs IH]; intros r Hr; [done|]. simpl.
  by apply IH, targetInList_step.
Qed.

Lemma moves_idle r l :
  draggingId r = None → Pointer.run r (Pointer.moves l) = r.
Proof.
  intros Hidle. unfold Pointer.run, Pointer.moves.
  induction l as [|m l IH]; [done|]. simpl.
  unfold handleMouseMove at 1. rewrite Hidle. simpl.
  assert (with_stickers r (stickers r) = r) as -> by by destruct r.
  exact IH.
Qed.

(** X4. Releasing the pointer, or leaving the canvas, ends the drag: the
    pointer moves that follow, however many, leave the composition exactly
    as it was at the release, and no drag target is set. *)
Theorem release_ends_drag (r : Render) (evs : list Pointer.event)
    (l : list (CanvasRef * MouseEvent)) :
  Pointer.run r (evs ++ [Pointer.Up] ++ Pointer.moves l)
  = Pointer.run r (evs ++ [Pointer.Up])
  ∧ Pointer.run r (evs ++ [Pointer.Leave] ++ Pointer.moves l)
    = Pointer.run r (evs ++ [Pointer.Leave])
  ∧ stickers (Pointer.run r (evs ++ [Pointer.Up])) = stickers (Pointer.run r evs)
  ∧ stickers (Pointer.run r (evs ++ [Pointer.Leave]))
    = stickers (Pointer.run r evs)
  ∧ draggingId (Pointer.run r (evs ++ [Pointer.Up])) = None
  ∧ draggingId (Pointer.run r (evs ++ [Pointer.Leave])) = None.
Proof.
  unfold Pointer.run. rewrite !app_assoc, !fold_left_app.
  repeat split; try done; by apply moves_idle.
Qed.

(** ** What the line breaker keeps *)

Lemma flatten_app l1 l2 : flatten (l1 ++ l2) = flatten l1 +:+ flatten l2.
Proof.
  induction l1 as [|s l1 IH]; [done|].
  unfold flatten in *. simpl. by rewrite IH, append_assoc.
Qed.

Lemma flatten_singleton s : flatten [s] = s.
Proof. unfold flatten. simpl. apply append_nil_r. Qed.

Lemma joined_append a b ws : joined (a +:+ b) ws = a +:+ joined b ws.
Proof.
  revert b. induction ws as [|w ws IH]; intros b; [done|].
  by rewrite !joined_cons, <- IH, !append_assoc.
Qed.

Section WrapContent.
Variable measureText : string → string → float.
Variables (fnt : string) (maxWidth : float).

Lemma flatten_wrap words n line lines :
  flatten (wrap measureText fnt maxWidth words n line lines)
  = flatten lines +:+ joined line words.
Proof.
  revert n line lines.
  induction words as [|w ws IH]; intros n line lines; cbn [wrap].
  - by rewrite flatten_app, flatten_singleton.
  - destruct (_ && _); rewrite IH, joined_cons.
    + assert (joined ((line +:+ w) +:+ " ") ws
              = line +:+ joined (w +:+ " ") ws) as ->.
      { rewrite append_assoc. apply joined_append. }
      rewrite flatten_app, flatten_singleton. apply append_assoc.
    + done.
Qed.

(** X5. Breaking a caption into lines loses and adds nothing: whatever the
    text measure and the width bound, the lines put end to end are the
    upper-cased caption followed by one space. Breaks fall only where a
    space already was. *)
Theorem wrapLines_keeps_the_caption (text : string) :
  flatten (wrapLines measureText fnt maxWidth text)
  = Str.toUpperCase text +:+ " ".
Proof.
  unfold wrapLines. rewrite flatten_wrap, joined_split.
  by rewrite !append_nil_l.
Qed.

Lemma wrap_length_le words n line lines :
  (length (wrap measureText fnt maxWidth words n line lines)
   ≤ length lines + 1 + length words)%nat.
Proof.
  revert n line lines.
  induction words as [|w ws IH]; intros n line lines; simpl.
  - rewrite length_app. simpl. lia.
  - destruct (_ && _).
    + specialize (IH (S n) (w +:+ " ") (lines ++ [line])).
      rewrite length_app in IH. simpl in IH. lia.
    + specialize (IH (S n) ((line +:+ w) +:+ " ") lines). lia.
Qed.

(** X6. A caption is drawn on at least one line and on at most as many
    lines as it has space-separated pieces, whatever the text measure and
    the width bound; a caption without a space is one line however wide it
    is. *)
Theorem wrapLines_line_count (text : string) :
  (1 ≤ length (wrapLines measureText fnt maxWidth text)
   ≤ length (Str.split (Str.toUpperCase text)))%nat
  ∧ (length (Str.split (Str.toUpperCase text)) = 1%nat →
     wrapLines measureText fnt maxWidth text
     = [Str.toUpperCase text +:+ " "]).
Proof.
  unfold wrapLines.
  destruct (Str.split (Str.toUpperCase text)) as [|w ws] eqn:Hs.
  { by destruct (split_nonempty (Str.toUpperCase text)). }
  split.
  - split.
    + pose proof (wrap_length measureText fnt maxWidth (w :: ws) 0 "" []) as H.
      simpl in H. exact H.
    + simpl. rewrite andb_false_r.
      pose proof (wrap_length_le ws 1 (("" +:+ w) +:+ " ") []) as H.
      simpl in H. lia.
  - destruct ws as [|w' ws]; [|done]. intros _. simpl.
    rewrite andb_false_r. simpl.
    pose proof (joined_split "" (Str.toUpperCase text)) as Hj.
    rewrite Hs in Hj. rewrite joined_cons in Hj. simpl in Hj.
    by rewrite Hj.
Qed.

End WrapContent.

(** ** What a frame leaves on the canvas *)

Lemma dimension_range (default : Z) (v : float) :
  (0 ≤ default ≤ 2147483647)%Z →
  (0 ≤ Canvas.dimension default v ≤ 2147483647)%Z.
Proof.
  intros Hd. unfold Canvas.dimension, JS.ToUnsignedLong.
  generalize (JS.IntegerPart v). intros z.
  pose proof (Z.mod_pos_bound z (2 ^ 32)) as Hmod.
  destruct (Z.leb_spec (z mod 2 ^ 32) 2147483647); lia.
Qed.

Section FrameFacts.
Variable measureText : string → string → float.

(** X7. A call of [drawCanvas] on a canvas with the identity transform,
    as every canvas is on which no call has thrown, leaves on the surface
    the paint operations of this one frame and nothing of the frames before
    it: the background if it is decoded, the stickers in list order, the top
    caption, the bottom caption. They are drawn from the default context
    state when the call resizes the surface, and from the state the canvas
    was in otherwise. When the image of a sticker is broken the call throws
    in the pass of the first such sticker, and the surface holds the frame
    up to that sticker. *)
Theorem drawCanvas_paints_one_frame (r : Render) (decoded : option (Z * Z))
    (images : string → option Image.t) (c : Canvas.t) :
  transform (Canvas.state c) = [] →
  let st :=
    if needsResize (background r decoded) c then defaultState
    else Canvas.state c in
  let c' := after (drawCanvas measureText r decoded images c) in
  (Forall (λ s, broken images s = false) (stickers r) →
   drawCanvas measureText r decoded images c = Returned c'
   ∧ Canvas.surface c'
     = frameOps measureText r (background r decoded) images
         (Canvas.width c') (Canvas.height c') st)
  ∧ (∀ l1 s l2,
       stickers r = l1 ++ s :: l2 →
       Forall (λ t, broken images t = false) l1 →
       broken images s = true →
       drawCanvas measureText r decoded images c
       = Threw InvalidStateError c'
       ∧ Canvas.surface c'
         = (if Image.usable (background r decoded)
            then [OpDrawImage (Image.src (background r decoded)) 0 0
                    (JS.Number (Canvas.width c'))
                    (JS.Number (Canvas.height c')) []]
            else [])
           ++ flat_map (stickerOps (draggingId r) images st) l1).
Proof.
  intros Hc st c'. subst st c'. split.
  - intros Hl. rewrite drawCanvas_returns by done. cbv zeta.
    split; [done|].
    cbn [after Canvas.surface Canvas.width Canvas.height].
    destruct (needsResize (background r decoded) c) eqn:Hsize.
    + by rewrite prepare_resized.
    + by rewrite prepare_cleared.
  - intros l1 s l2 Hr Hl1 Hs.
    rewrite (drawCanvas_throws _ _ _ _ _ _ _ _ Hr Hl1 Hs). cbv zeta.
    split; [done|].
    cbn [after Canvas.surface Canvas.width Canvas.height].
    destruct (needsResize (background r decoded) c) eqn:Hsize.
    + by rewrite prepare_resized.
    + rewrite prepare_cleared by done. cbn [Canvas.erase Canvas.surface
        Canvas.state Canvas.width Canvas.height]. by rewrite Hc.
Qed.

Lemma prepare_range img c :
  (0 ≤ Canvas.width c ≤ 2147483647)%Z ∧ (0 ≤ Canvas.height c ≤ 2147483647)%Z →
  (0 ≤ Canvas.width (prepare img c) ≤ 2147483647)%Z
  ∧ (0 ≤ Canvas.height (prepare img c) ≤ 2147483647)%Z.
Proof.
  intros Hc. unfold prepare. destruct (_ || _).
  - cbn [Canvas.set_width Canvas.set_height Canvas.width Canvas.height].
    split; apply dimension_range; lia.
  - by rewrite clearRect_width, clearRect_height.
Qed.

(** X8. Every canvas the component can hold has a width and a height
    between 0 and 2147483647. As long as no call of [drawCanvas] has thrown,
    the canvas has balanced save and restore calls (the stack of saved
    states is empty) and the identity transform. A call that throws on such
    a canvas leaves one saved state that is never restored, and the
    translation and rotation of a sticker whose image is broken. *)
Theorem Drawn_canvas_is_settled (c : Canvas.t) :
  (Held measureText c →
   (0 ≤ Canvas.width c ≤ 2147483647)%Z
   ∧ (0 ≤ Canvas.height c ≤ 2147483647)%Z)
  ∧ (Drawn measureText c →
     Canvas.stack c = [] ∧ transform (Canvas.state c) = [])
  ∧ (∀ r decoded images e c',
       Drawn measureText c →
       drawCanvas measureText r decoded images c = Threw e c' →
       length (Canvas.stack c') = 1%nat
       ∧ ∃ s, s ∈ stickers r
              ∧ broken images s = true
              ∧ transform (Canvas.state c')
                = [Translate (Sticker.x s) (Sticker.y s);
                   Rotate (Sticker.rotation s * JS.Math_PI / 180)]).
Proof.
  split; [|split].
  - induction 1 as [|r decoded images c Hc IH]; [cbn; lia|].
    rewrite drawCanvas_width, drawCanvas_height. by apply prepare_range.
  - by intros [? ?]%Drawn_settled.
  - intros r decoded images e c' [Htr Hstk]%Drawn_settled Hthrew.
    destruct (drawCanvas_Threw _ _ _ _ _ _ _ Hthrew)
      as (l1 & s & l2 & Hr & Hl1 & Hs).
    rewrite (drawCanvas_throws _ _ _ _ _ _ _ _ Hr Hl1 Hs) in Hthrew.
    apply (f_equal after) in Hthrew. cbn [after] in Hthrew. subst c'.
    cbv zeta.
    cbn [Canvas.stack Canvas.state Ctx.apply transform].
    assert (Canvas.stack (prepare (background r decoded) c) = []
            ∧ transform (Canvas.state (prepare (background r decoded) c)) = [])
      as [-> ->].
    { destruct (needsResize (background r decoded) c) eqn:Hsize.
      - by rewrite prepare_resized.
      - by rewrite prepare_cleared. }
    split; [done|]. exists s. split; [|done].
    rewrite Hr. apply elem_of_app. right. apply list_elem_of_here.
Qed.

(** X9. When a decoded background between 1 and 4096 pixels wide makes
    [drawCanvas] resize the surface, the surface is as wide as the image if
    the image is at most 800 wide, and 800 or 799 wide otherwise: the
    rounding of the scale costs at most one pixel. *)
Theorem drawCanvas_width_within_one (r : Render) (w h : Z)
    (images : string → option Image.t) (c : Canvas.t) :
  (1 ≤ w ≤ 4096)%Z →
  needsResize (background r (Some (w, h))) c = true →
  let cw :=
    Canvas.width (after (drawCanvas measureText r (Some (w, h)) images c)) in
  if (w <=? 800)%Z then cw = w else cw = 800%Z ∨ cw = 799%Z.
Proof.
  intros Hw Hsize. cbv zeta. rewrite drawCanvas_width, prepare_resized by done.
  pose proof surface_width_up_to_4096 as Hall.
  rewrite forallb_forall in Hall. specialize (Hall w).
  assert (Canvas.width (sized (background r (Some (w, h))))
          = Canvas.width
              (sized {| Image.src := "";
                        Image.status := Image.Available (w, w);
                        Image.onload := None |})) as ->.
  { unfold sized. cbn [Canvas.width]. unfold Image.width.
    by rewrite background_status. }
  cbv zeta in Hall.
  assert (In w (seqZ 1 4096)) as Hin.
  { apply list_elem_of_In, elem_of_seqZ. lia. }
  specialize (Hall Hin).
  destruct (w <=? 800)%Z.
  - by apply Z.eqb_eq.
  - apply orb_true_iff in Hall as [H|H]; apply Z.eqb_eq in H; auto.
Qed.

End FrameFacts.

(** ** The image cache across renders *)

Lemma loadSticker_keeps r available w s id h :
  World.cache w !! id = Some h →
  World.cache (World.loadSticker r available w s) !! id = Some h.
Proof.
  intros Hid. unfold World.loadSticker.
  destruct (World.cache w !! Sticker.id s) eqn:Hs; [done|]. simpl.
  rewrite lookup_insert_ne; [done|]. congruence.
Qed.

Lemma loadSticker_heap r available w s h img :
  World.heap w !! h = Some img →
  World.heap (World.loadSticker r available w s) !! h = Some img.
Proof.
  intros Hh. unfold World.loadSticker.
  destruct (World.cache w !! Sticker.id s); [done|]. simpl.
  by apply lookup_app_l_Some.
Qed.

Lemma loadStickers_keeps r available l w id h :
  World.cache w !! id = Some h →
  World.cache (fold_left (World.loadSticker r available) l w) !! id = Some h.
Proof.
  revert w. induction l as [|s l IH]; intros w Hid; [done|]. simpl.
  by apply IH, loadSticker_keeps.
Qed.

Lemma loadStickers_heap r available l w h img :
  World.heap w !! h = Some img →
  World.heap (fold_left (World.loadSticker r available) l w) !! h = Some img.
Proof.
  revert w. induction l as [|s l IH]; intros w Hh; [done|]. simpl.
  by apply IH, loadSticker_heap.
Qed.

Lemma stickersEffect_lookup r available w id :
  World.stickerImages (World.stickersEffect r available w) id
  = if bool_decide (id ∈ Sticker.id <$> stickers r)
    then World.stickerImages
           (fold_left (World.loadSticker r available) (stickers r) w) id
    else None.
Proof.
  unfold World.stickerImages, World.stickersEffect. simpl.
  rewrite cleanup_lookup.
  destruct (decide (id ∈ Sticker.id <$> stickers r)) as [Hin|Hin].
  - rewrite !bool_decide_eq_true_2; [done|done|].
    by apply elem_of_list_to_set.
  - rewrite !bool_decide_eq_false_2; [done|done|].
    by rewrite elem_of_list_to_set.
Qed.

(** X10. A sticker that has an image element in the cache keeps that very
    element when the effect runs for a list that still holds its
    identifier: the element is not created again, whatever url the sticker
    has by then. *)
Theorem stickersEffect_reuses_elements (r : Render)
    (available : string → option (Z * Z)) (w : World.t) (id : string)
    (img : Image.t) :
  World.stickerImages w id = Some img →
  id ∈ Sticker.id <$> stickers r →
  World.stickerImages (World.stickersEffect r available w) id = Some img.
Proof.
  intros Himg Hin. rewrite stickersEffect_lookup, bool_decide_eq_true_2 by done.
  unfold World.stickerImages in *.
  destruct (World.cache w !! id) as [h|] eqn:Hid; [|done]. simpl in Himg.
  rewrite (loadStickers_keeps _ _ _ _ id h Hid). simpl.
  by apply loadStickers_heap.
Qed.

(** X11. A sticker whose identifier the cache does not hold yet, and that
    is the first of the list with that identifier, gets a new image element:
    its source is the sticker's url and its load handler is the [drawCanvas]
    of the render the effect ran for. Stickers further down the list with
    the same identifier share this element. *)
Theorem stickersEffect_creates_element (r : Render)
    (available : string → option (Z * Z)) (w : World.t)
    (l1 l2 : list Sticker.t) (s : Sticker.t) :
  stickers r = l1 ++ s :: l2 →
  World.cache w !! Sticker.id s = None →
  Sticker.id s ∉ Sticker.id <$> l1 →
  World.stickerImages (World.stickersEffect r available w) (Sticker.id s)
  = Some {| Image.src := Sticker.url s;
            Image.status := Image.requested (available (Sticker.url s));
            Image.onload := Some r |}.
Proof.
  intros Hl Hnew Hfirst. rewrite stickersEffect_lookup, Hl.
  rewrite bool_decide_eq_true_2.
  2:{ rewrite fmap_app, fmap_cons. apply elem_of_app. right.
      apply list_elem_of_here. }
  rewrite fold_left_app. cbn [fold_left].
  set (w1 := fold_left (World.loadSticker r available) l1 w).
  assert (World.cache w1 !! Sticker.id s = None) as Hw1.
  { apply not_elem_of_dom. unfold w1. rewrite loadStickers_dom.
    apply not_elem_of_dom in Hnew. rewrite not_elem_of_union.
    split; [done|]. by rewrite elem_of_list_to_set. }
  unfold World.stickerImages.
  rewrite (loadStickers_keeps _ _ _ _ (Sticker.id s) (length (World.heap w1))).
  2:{ unfold World.loadSticker. rewrite Hw1. simpl.
      by rewrite lookup_insert_eq. }
  simpl. apply loadStickers_heap. unfold World.loadSticker. rewrite Hw1.
  simpl. by rewrite lookup_app_r, Nat.sub_diag.
Qed.

(** X12. Pointer events never touch the cache: when the effect runs again
    for the list that any sequence of pointer events has made of the list it
    ran for last, no element is created and none is dropped. *)
Theorem pointer_events_keep_the_cache (r : Render)
    (evs : list Pointer.event) (available available' : string → option (Z * Z))
    (w : World.t) :
  World.stickersEffect (Pointer.run r evs) available'
    (World.stickersEffect r available w)
  = World.stickersEffect r available w.
Proof.
  apply stickersEffect_again, ids_of_fixedPart, fixedPart_run.
Qed.

Section ImageElements.
Variable measureText : string → string → float.

Lemma altered_heap (f : Image.t → Image.t) (l : list Image.t)
    (h' h : nat) (img : Image.t) :
  (∀ i, Image.src (f i) = Image.src i ∧ Image.onload (f i) = Image.onload i
        ∧ (Image.complete i = true → Image.complete (f i) = true)) →
  l !! h = Some img →
  ∃ img', alter f h' l !! h = Some img'
          ∧ Image.src img' = Image.src img
          ∧ Image.onload img' = Image.onload img
          ∧ (Image.complete img = true → Image.complete img' = true).
Proof.
  intros Hf Hh. destruct (decide (h' = h)) as [->|Hne].
  - exists (f img). rewrite list_lookup_alter_eq, Hh. split; [done|].
    apply Hf.
  - exists img. by rewrite list_lookup_alter_ne.
Qed.

Lemma step_heap w ev h img :
  World.heap w !! h = Some img →
  ∃ img', World.heap (World.step measureText w ev) !! h = Some img'
          ∧ Image.src img' = Image.src img
          ∧ Image.onload img' = Image.onload img
          ∧ (Image.complete img = true → Image.complete img' = true).
Proof.
  intros Hh. destruct ev as [r available|h' size available|h'].
  - exists img. split; [|done]. cbn [World.step].
    unfold World.commit, World.draw. cbn [World.heap].
    apply lookup_app_l_Some. unfold World.stickersEffect. cbn [World.heap].
    by apply loadStickers_heap.
  - assert (∃ img', World.heap (World.decoded h' size w) !! h = Some img'
                    ∧ Image.src img' = Image.src img
                    ∧ Image.onload img' = Image.onload img
                    ∧ (Image.complete img = true → Image.complete img' = true))
      as (img' & Hh' & Himg').
    { unfold World.decoded. cbn [World.heap].
      apply altered_heap; [|done]. intros i. split; [done|]. split; [done|].
      intros _. apply orb_true_r. }
    exists img'. split; [|done]. cbn [World.step]. unfold World.load.
    destruct (World.heap w !! h' ≫= Image.onload); [|done].
    unfold World.draw. cbn [World.heap]. by apply lookup_app_l_Some.
  - cbn [World.step]. unfold World.failed. cbn [World.heap].
    apply altered_heap; [|done]. intros i. split; [done|]. split; [done|].
    intros _. apply orb_true_r.
Qed.

(** X13. An image element keeps its source and its load handler for the
    rest of the session, and once complete it stays complete: later commits,
    loads and failed loads never replace the handler, which stays the
    [drawCanvas] of the render that created the element. *)
Theorem image_elements_are_stable (evs evs' : list World.event) (h : nat)
    (img : Image.t) :
  World.heap (World.run measureText evs) !! h = Some img →
  ∃ img',
    World.heap (World.run measureText (evs ++ evs')) !! h = Some img'
    ∧ Image.src img' = Image.src img
    ∧ Image.onload img' = Image.onload img
    ∧ (Image.complete img = true → Image.complete img' = true).
Proof.
  unfold World.run. rewrite fold_left_app.
  generalize (fold_left (World.step measureText) evs World.initial).
  intros w. revert w img.
  induction evs' as [|ev evs' IH]; intros w img Hh.
  - by exists img.
  - destruct (step_heap w ev h img Hh) as (img1 & Hh1 & Hs1 & Ho1 & Hc1).
    destruct (IH _ _ Hh1) as (img2 & Hh2 & Hs2 & Ho2 & Hc2).
    exists img2. cbn [fold_left]. split; [done|].
    split; [congruence|]. split; [congruence|]. auto.
Qed.

End ImageElements.

(** ** Adding and removing stickers *)

Lemma filter_all {A} (P : A → Prop) `{!∀ x, Decision (P x)} (l : list A) :
  Forall P l → filter P l = l.
Proof.
  induction 1 as [|x l Hx Hl IH]; [done|].
  by rewrite filter_cons_True, IH.
Qed.

Lemma removeSticker_absent id l :
  id ∉ App.ids l → App.removeSticker id l = l.
Proof.
  intros Hid. apply filter_all, Forall_forall. intros s Hs Heq.
  subst id. apply Hid. by apply list_elem_of_fmap_2.
Qed.

(** X14. Removing a sticker that was just generated gives back the list as
    it was before, provided its identifier, the clock reading, is not that
    of a sticker already there. *)
Theorem removeSticker_undoes_generate (now : Z) (stickerBase64 : string)
    (l : list Sticker.t) :
  pretty now ∉ App.ids l →
  App.removeSticker (pretty now)
    (App.handleGenerateSticker now stickerBase64 l)
  = l.
Proof.
  intros Hnew. unfold App.handleGenerateSticker, App.removeSticker.
  rewrite filter_app, filter_cons_False, filter_nil, app_nil_r.
  - by apply removeSticker_absent.
  - simpl. by intros [].
Qed.

(** X15. [removeSticker] drops exactly the stickers with the identifier,
    all of them, and keeps the others in order: the result is a sublist
    without the identifier, it is the list itself exactly when the
    identifier is absent, removing twice is removing once, and removals
    commute. *)
Theorem removeSticker_algebra (id id' : string) (l : list Sticker.t) :
  sublist (App.removeSticker id l) l
  ∧ (∀ s, s ∈ App.removeSticker id l ↔ s ∈ l ∧ Sticker.id s ≠ id)
  ∧ (App.removeSticker id l = l ↔ id ∉ App.ids l)
  ∧ App.removeSticker id (App.removeSticker id l) = App.removeSticker id l
  ∧ App.removeSticker id (App.removeSticker id' l)
    = App.removeSticker id' (App.removeSticker id l).
Proof.
  split; [apply sublist_filter|].
  split.
  { intros s. unfold App.removeSticker. rewrite list_elem_of_filter.
    naive_solver. }
  split.
  { split; [|apply removeSticker_absent].
    intros Heq. unfold App.ids. rewrite <- Heq. apply removeSticker_ids. }
  split.
  { apply removeSticker_absent, removeSticker_ids. }
  unfold App.removeSticker. rewrite !list_filter_filter.
  apply list_filter_iff. naive_solver.
Qed.

(** X16. A sticker that was just generated lies on top at its default
    place: a pointer-down at (150, 150) starts a drag on it with a zero
    offset, whatever stickers were in the list before. *)
Theorem new_sticker_is_grabbed_first (r : Render) (ref : CanvasRef)
    (e : MouseEvent) (now : Z) (stickerBase64 : string)
    (l : list Sticker.t) :
  stickers r = App.handleGenerateSticker now stickerBase64 l →
  getMousePos ref e = {| px := 150; py := 150 |} →
  handleMouseDown r ref e = (Some (pretty now), {| px := 0; py := 0 |}).
Proof.
  intros Hl Hpos. unfold handleMouseDown. rewrite Hl, Hpos.
  unfold App.handleGenerateSticker.
  by rewrite (hitTest_top l (App.newSticker now stickerBase64) []).
Qed.

(** ** Data URLs of the service *)

Lemma stripPrefix_Some p s rest :
  Service.stripPrefix p s = Some rest ↔ s = p +:+ rest.
Proof.
  revert s. induction p as [|a p IH]; intros s; simpl.
  - rewrite append_nil_l. split; congruence.
  - destruct s as [|b s]; rewrite append_cons.
    + split; discriminate.
    + case_bool_decide as Hab.
      * subst b. rewrite IH. split; congruence.
      * split; [discriminate|]. intros [= ? ?]. by subst.
Qed.

Lemma cleanBase64_png d :
  Service.cleanBase64 ("data:image/png;base64," +:+ d) = d.
Proof. reflexivity. Qed.

Lemma cleanBase64_jpeg d :
  Service.cleanBase64 ("data:image/jpeg;base64," +:+ d) = d.
Proof. reflexivity. Qed.

Lemma cleanBase64_webp d :
  Service.cleanBase64 ("data:image/webp;base64," +:+ d) = d.
Proof. reflexivity. Qed.

(** X17. [cleanBase64] takes the prefix of a PNG, JPEG or WebP data URL
    off and returns the payload as it is, whatever the payload: also a
    payload that starts with such a prefix itself keeps it, since one prefix
    is removed and no more. *)
Theorem cleanBase64_returns_payload (d : string) :
  Service.cleanBase64 ("data:image/png;base64," +:+ d) = d
  ∧ Service.cleanBase64 ("data:image/jpeg;base64," +:+ d) = d
  ∧ Service.cleanBase64 ("data:image/webp;base64," +:+ d) = d
  ∧ Service.cleanBase64
      ("data:image/png;base64," +:+ "data:image/png;base64," +:+ d)
    = "data:image/png;base64," +:+ d.
Proof.
  split; [apply cleanBase64_png|]. split; [apply cleanBase64_jpeg|].
  split; [apply cleanBase64_webp|]. apply cleanBase64_png.
Qed.

(** X18. [cleanBase64] removes nothing but one of its three prefixes: the
    input is such a prefix followed by the result, or it starts with none of
    the three and is returned unchanged. A data URL of another type, a GIF
    say, keeps its prefix. *)
Theorem cleanBase64_removes_only_prefix (dataUrl : string) :
  (∃ p, p ∈ dataUrlPrefixes ∧ dataUrl = p +:+ Service.cleanBase64 dataUrl)
  ∨ (Service.cleanBase64 dataUrl = dataUrl
     ∧ ∀ p rest, p ∈ dataUrlPrefixes → dataUrl ≠ p +:+ rest).
Proof.
  unfold Service.cleanBase64, dataUrlPrefixes.
  destruct (Service.stripPrefix "data:image/png;base64," dataUrl)
    as [rest|] eqn:Hpng.
  { left. eexists. split; [|by apply stripPrefix_Some].
    apply list_elem_of_here. }
  destruct (Service.stripPrefix "data:image/jpeg;base64," dataUrl)
    as [rest|] eqn:Hjpeg.
  { left. eexists. split; [|by apply stripPrefix_Some].
    apply list_elem_of_further, list_elem_of_here. }
  destruct (Service.stripPrefix "data:image/webp;base64," dataUrl)
    as [rest|] eqn:Hwebp.
  { left. eexists. split; [|by apply stripPrefix_Some].
    do 2 apply list_elem_of_further. apply list_elem_of_here. }
  right. split; [done|]. intros p rest Hp Heq.
  apply stripPrefix_Some in Heq.
  rewrite !elem_of_cons, elem_of_nil in Hp.
  destruct Hp as [->|[->|[->|[]]]]; congruence.
Qed.

Lemma truthyString_Some s bytes :
  Service.truthyString s = Some bytes → s = Some bytes ∧ bytes ≠ "".
Proof.
  unfold Service.truthyString. destruct s as [t|]; [|done].
  case_bool_decide; [done|]. by intros [= <-].
Qed.

(** X19. What [editImageWithAI] and [generateSticker] return is a PNG data
    URL with a payload that is not empty, and [cleanBase64] gives back
    exactly that payload, so a result can be sent to [editImageWithAI]
    again. What they throw is the error of the request, unchanged, or their
    own error for a response without image data. *)
Theorem service_results_are_png_data_urls :
  (∀ settled url,
     Service.editImageWithAI settled = inr url →
     ∃ bytes, bytes ≠ "" ∧ url = "data:image/png;base64," +:+ bytes
              ∧ Service.cleanBase64 url = bytes)
  ∧ (∀ settled url,
       Service.generateSticker settled = inr url →
       ∃ bytes, bytes ≠ "" ∧ url = "data:image/png;base64," +:+ bytes
                ∧ Service.cleanBase64 url = bytes)
  ∧ (∀ settled e,
       Service.editImageWithAI settled = inl e →
       settled = inl e ∨ e = Service.NoImageData)
  ∧ (∀ settled e,
       Service.generateSticker settled = inl e →
       settled = inl e ∨ e = Service.NoStickerGenerated).
Proof.
  split; [|split; [|split]].
  - intros [e|response] url; [done|]. unfold Service.editImageWithAI.
    destruct (_ ≫= (λ d, Service.truthyString (Service.data d)))
      as [bytes|] eqn:Hbytes; [|done].
    intros [= <-]. exists bytes. split; [|by rewrite cleanBase64_png].
    apply bind_Some in Hbytes as (d & _ & Hd).
    by apply truthyString_Some in Hd as [_ Hne].
  - intros [e|response] url; [done|]. unfold Service.generateSticker.
    destruct (_ ≫= (λ i, Service.truthyString (Service.imageBytes i)))
      as [bytes|] eqn:Hbytes; [|done].
    intros [= <-]. exists bytes. split; [|by rewrite cleanBase64_png].
    apply bind_Some in Hbytes as (d & _ & Hd).
    by apply truthyString_Some in Hd as [_ Hne].
  - intros [e'|response] e; [intros [= <-]; by left|].
    unfold Service.editImageWithAI.
    destruct (_ ≫= (λ d, Service.truthyString (Service.data d))); [done|].
    intros [= <-]. by right.
  - intros [e'|response] e; [intros [= <-]; by left|].
    unfold Service.generateSticker.
    destruct (_ ≫= (λ i, Service.truthyString (Service.imageBytes i)));
      [done|].
    intros [= <-]. by right.
Qed.

(** ** Captions split between top and bottom *)

Lemma splitOn_nonempty sep s : Caption.splitOn sep s ≠ [].
Proof.
  destruct s as [|a s]; simpl; [done|].
  destruct (sep a); [done|]. by destruct (Caption.splitOn sep s).
Qed.

Lemma splitOn_free sep s :
  Forall (λ w, contains sep w = false) (Caption.splitOn sep s).
Proof.
  induction s as [|a s IH]; simpl.
  - by apply Forall_singleton.
  - destruct (sep a) eqn:Ha.
    + by apply Forall_cons.
    + destruct (Caption.splitOn sep s) as [|w ws].
      * apply Forall_singleton. simpl. by rewrite Ha.
      * apply Forall_cons in IH as [Hw Hws].
        apply Forall_cons. split; [|done]. simpl. by rewrite Ha.
Qed.

Lemma splitOn_absent sep s :
  contains sep s = false → Caption.splitOn sep s = [s].
Proof.
  induction s as [|a s IH]; simpl; [done|].
  intros [Ha Hs]%orb_false_iff. by rewrite Ha, IH.
Qed.

Lemma splitOn_present sep s :
  contains sep s = true → (1 < length (Caption.splitOn sep s))%nat.
Proof.
  induction s as [|a s IH]; simpl; [done|].
  destruct (sep a); simpl.
  - intros _. pose proof (splitOn_nonempty sep s).
    destruct (Caption.splitOn sep s); [done|]. simpl. lia.
  - intros Hs%IH. destruct (Caption.splitOn sep s); simpl in *; lia.
Qed.

Lemma splitOn_app sep a c rest :
  contains sep a = false → sep c = true →
  Caption.splitOn sep (a +:+ String c rest) = a :: Caption.splitOn sep rest.
Proof.
  intros Ha Hc. induction a as [|b a IH].
  - rewrite append_nil_l. simpl. by rewrite Hc.
  - simpl in Ha. apply orb_false_iff in Ha as [Hb Ha].
    rewrite append_cons. simpl. by rewrite Hb, IH.
Qed.

Lemma contains_app p a b :
  contains p (a +:+ b) = contains p a || contains p b.
Proof.
  induction a as [|c a IH]; [done|].
  rewrite append_cons. simpl. by rewrite IH, orb_assoc.
Qed.

Lemma contains_join p l :
  p " "%char = false → Forall (λ w, contains p w = false) l →
  contains p (Caption.join l) = false.
Proof.
  intros Hsp. induction 1 as [|w l Hw Hl IH]; [done|].
  destruct l as [|w' l]; [done|].
  change (Caption.join (w :: w' :: l))
    with (w +:+ " " +:+ Caption.join (w' :: l)).
  rewrite !contains_app, Hw, IH. simpl. by rewrite Hsp.
Qed.

Lemma contains_trimStart p s :
  contains p s = false → contains p (Caption.trimStart s) = false.
Proof.
  induction s as [|a s IH]; [done|]. simpl.
  intros [Ha Hs]%orb_false_iff.
  destruct (Caption.isWhiteSpace a); [by apply IH|]. simpl.
  by rewrite Ha, Hs.
Qed.

Lemma contains_trimEnd p s :
  contains p s = false → contains p (Caption.trimEnd s) = false.
Proof.
  induction s as [|a s IH]; [done|]. simpl.
  intros [Ha Hs]%orb_false_iff. specialize (IH Hs).
  destruct (Caption.trimEnd s) as [|b t].
  - destruct (Caption.isWhiteSpace a); [done|]. simpl. by rewrite Ha.
  - change (contains p (String a (String b t)))
      with (p a || contains p (String b t)).
    by rewrite Ha, IH.
Qed.

Lemma contains_trim p s :
  contains p s = false → contains p (Caption.trim s) = false.
Proof. intros Hs. by apply contains_trimEnd, contains_trimStart. Qed.

(** X20. A caption without a comma, a line feed, a question mark or an
    exclamation mark, and any caption of at most 30 characters, goes to the
    bottom text unchanged, punctuation included, and the top text is
    emptied. *)
Theorem applyCaption_keeps_short_or_plain (caption : string) :
  contains Caption.isSeparator caption = false
  ∨ (String.length caption ≤ 30)%nat →
  Caption.applyCaption caption = ("", caption).
Proof.
  intros [Hplain|Hshort]; unfold Caption.applyCaption.
  - by rewrite splitOn_absent.
  - rewrite (bool_decide_eq_false_2 (30 < _)%nat) by lia.
    by rewrite andb_false_r.
Qed.

(** X21. A caption of more than 30 characters that contains a comma, a
    line feed, a question mark or an exclamation mark is split, and neither
    the top nor the bottom text it sets contains any of these characters:
    the separators are dropped, not kept as punctuation. *)
Theorem applyCaption_drops_separators (caption : string) :
  contains Caption.isSeparator caption = true →
  (30 < String.length caption)%nat →
  contains Caption.isSeparator (Caption.applyCaption caption).1 = false
  ∧ contains Caption.isSeparator (Caption.applyCaption caption).2 = false.
Proof.
  intros Hsep%splitOn_present Hlong. unfold Caption.applyCaption.
  rewrite !bool_decide_eq_true_2 by done. simpl.
  pose proof (splitOn_free Caption.isSeparator caption) as Hfree.
  split; apply contains_trim, contains_join; try done.
  - by apply Forall_take.
  - by apply Forall_drop.
Qed.

(** X22. A caption of more than 30 characters with exactly one separator
    is not divided between the two texts: both halves go to the top text,
    joined by a space where the separator was, and the bottom text is
    empty. *)
Theorem applyCaption_one_separator (a b : string) (c : ascii) :
  contains Caption.isSeparator a = false →
  contains Caption.isSeparator b = false →
  Caption.isSeparator c = true →
  (30 < String.length (a +:+ String c b))%nat →
  Caption.applyCaption (a +:+ String c b)
  = (Caption.trim (a +:+ " " +:+ b), "").
Proof.
  intros Ha Hb Hc Hlong. unfold Caption.applyCaption.
  rewrite splitOn_app, splitOn_absent by done.
  rewrite !bool_decide_eq_true_2 by (done || (simpl; lia)).
  reflexivity.
Qed.

(** * Further worked examples *)

Section FurtherExamples.
Import Scenario.
Import Sample.

(** The pointer goes down at the centre of the sticker of the scenario. *)
Lemma handleMouseDown_starts_only_on_hit_example :
  ∃ l1 s l2,
    stickers idle = l1 ++ s :: l2
    ∧ Sticker.id s = "1000"
    ∧ hit (getMousePos mounted at_150_150) s = true
    ∧ Forall (λ t, hit (getMousePos mounted at_150_150) t = false) l2
    ∧ (handleMouseDown idle mounted at_150_150).2
      = {| px := px (getMousePos mounted at_150_150) - Sticker.x s;
           py := py (getMousePos mounted at_150_150) - Sticker.y s |}.
Proof.
  exact (handleMouseDown_starts_only_on_hit idle mounted at_150_150 "1000"
           eq_refl eq_refl).
Defined.

(** After a pointer-down on the sticker and a move, the drag target is
    the sticker. *)
Lemma drag_target_is_in_list_example :
  match draggingId (Pointer.run idle gesture) with
  | Some d => d ∈ Sticker.id <$> stickers (Pointer.run idle gesture)
  | None => True
  end.
Proof. exact (drag_target_is_in_list idle gesture eq_refl). Defined.

Example gesture_moves_the_sticker :
  draggingId (Pointer.run idle gesture) = Some "1000"
  ∧ stickers (Pointer.run idle gesture) = [Sticker.with_xy sticker 300 200]
  ∧ stickers (Pointer.run idle (gesture ++ [Pointer.Up] ++ gesture))
    = [Sticker.with_xy sticker 300 200].
Proof. by vm_compute. Qed.

(** A second frame on the canvas of the scenario, now with the sticker
    as drag target: no resize, so the frame is drawn from the state the
    first frame left. *)
Lemma drawCanvas_paints_one_frame_example :
  drawCanvas (monospace 40) dragging (Some (1600, 900)%Z) loaded drawn
  = Returned
      (after
         (drawCanvas (monospace 40) dragging (Some (1600, 900)%Z) loaded
            drawn))
  ∧ Canvas.surface
      (after
         (drawCanvas (monospace 40) dragging (Some (1600, 900)%Z) loaded
            drawn))
    = frameOps (monospace 40) dragging
        (background dragging (Some (1600, 900)%Z)) loaded
        (Canvas.width
           (after
              (drawCanvas (monospace 40) dragging (Some (1600, 900)%Z) loaded
                 drawn)))
        (Canvas.height
           (after
              (drawCanvas (monospace 40) dragging (Some (1600, 900)%Z) loaded
                 drawn)))
        (Canvas.state drawn).
Proof.
  assert (transform (Canvas.state drawn) = []) as Htr by by vm_compute.
  assert (Forall (λ s, broken loaded s = false) (stickers dragging)) as Hl.
  { by repeat constructor. }
  assert (needsResize (background dragging (Some (1600, 900)%Z)) drawn
          = false) as Hsize by by vm_compute.
  pose proof (proj1 (drawCanvas_paints_one_frame (monospace 40) dragging
                       (Some (1600, 900)%Z) loaded drawn Htr) Hl) as Hframe.
  rewrite Hsize in Hframe. exact Hframe.
Defined.

(** The canvas of the scenario, after one call that returned. *)
Lemma Drawn_canvas_is_settled_example :
  Canvas.stack drawn = [] ∧ transform (Canvas.state drawn) = [].
Proof.
  assert (drawCanvas (monospace 40) idle (Some (1600, 900)%Z) loaded
            Canvas.fresh = Returned drawn) as Hret by by vm_compute.
  exact (proj1 (proj2 (Drawn_canvas_is_settled (monospace 40) drawn))
           (Drawn_draw _ _ _ _ _ _ (Drawn_fresh _) Hret)).
Defined.

Lemma drawCanvas_width_within_one_example :
  Canvas.width
    (after
       (drawCanvas (monospace 40) idle (Some (1078, 600)%Z) loaded
          Canvas.fresh))
  = 800%Z
  ∨ Canvas.width
      (after
         (drawCanvas (monospace 40) idle (Some (1078, 600)%Z) loaded
            Canvas.fresh))
    = 799%Z.
Proof.
  assert (1 ≤ 1078 ≤ 4096)%Z as Hw by lia.
  assert (needsResize (background idle (Some (1078, 600)%Z)) Canvas.fresh
          = true) as Hsize by by vm_compute.
  exact (drawCanvas_width_within_one (monospace 40) idle 1078 600 loaded
           Canvas.fresh Hw Hsize).
Defined.

(** Two frames of the scenario in succession: the second leaves the canvas
    of the first. *)
Lemma drawCanvas_again_example :
  drawCanvas (monospace 40) idle (Some (1600, 900)%Z) loaded
    (after
       (drawCanvas (monospace 40) idle (Some (1600, 900)%Z) loaded
          Canvas.fresh))
  = drawCanvas (monospace 40) idle (Some (1600, 900)%Z) loaded Canvas.fresh.
Proof.
  assert (Forall (λ s, broken loaded s = false) (stickers idle)) as Hl.
  { by repeat constructor. }
  exact (drawCanvas_again_leaves_canvas (monospace 40) idle
           (Some (1600, 900)%Z) loaded Canvas.fresh eq_refl eq_refl Hl).
Defined.

(** The sticker is dragged after the first commit: its element stays. *)
Lemma stickersEffect_reuses_elements_example :
  World.stickerImages (World.stickersEffect dragging pending committed) "1000"
  = Some element.
Proof.
  assert ("1000" ∈ Sticker.id <$> stickers dragging) as Hin.
  { apply list_elem_of_here. }
  assert (World.stickerImages committed "1000" = Some element) as Himg.
  { by vm_compute. }
  exact (stickersEffect_reuses_elements dragging pending committed "1000"
           element Himg Hin).
Defined.

(** The first commit creates the element of the sticker. *)
Lemma stickersEffect_creates_element_example :
  World.stickerImages (World.stickersEffect idle pending World.initial)
    (Sticker.id sticker)
  = Some {| Image.src := Sticker.url sticker;
            Image.status := Image.requested (pending (Sticker.url sticker));
            Image.onload := Some idle |}.
Proof.
  assert (Sticker.id sticker ∉ Sticker.id <$> []) as Hfirst.
  { apply not_elem_of_nil. }
  exact (stickersEffect_creates_element idle pending World.initial [] []
           sticker eq_refl (lookup_empty _) Hfirst).
Defined.

(** The element of the sticker decodes after the first commit: it is
    complete then, with the source and the handler it was created with. *)
Lemma image_elements_are_stable_example :
  ∃ img',
    World.heap
      (World.run (monospace 40)
         ([World.Commit idle pending]
          ++ [World.Load 0 (512, 512)%Z pending])) !! 0%nat
    = Some img'
    ∧ Image.src img' = Image.src element
    ∧ Image.onload img' = Image.onload element
    ∧ (Image.complete element = true → Image.complete img' = true).
Proof.
  assert (World.heap (World.run (monospace 40) [World.Commit idle pending])
            !! 0%nat = Some element) as Hh.
  { by vm_compute. }
  exact (image_elements_are_stable (monospace 40) [World.Commit idle pending]
           [World.Load 0 (512, 512)%Z pending] 0 element Hh).
Defined.

Lemma removeSticker_undoes_generate_example :
  App.removeSticker (pretty 2000%Z)
    (App.handleGenerateSticker 2000 "data:image/png;base64,BB" [sticker])
  = [sticker].
Proof.
  assert (pretty 2000%Z ∉ App.ids [sticker]) as Hnew.
  { intros Hin%list_elem_of_singleton. by vm_compute in Hin. }
  exact (removeSticker_undoes_generate 2000 "data:image/png;base64,BB"
           [sticker] Hnew).
Defined.

(** Without the condition the round trip fails: the removal takes the
    older sticker with the same identifier too. *)
Example removeSticker_takes_duplicates :
  App.removeSticker (pretty 1000%Z)
    (App.handleGenerateSticker 1000 "data:image/png;base64,BB" [sticker])
  = [].
Proof. by vm_compute. Qed.

(** The new sticker covers the older one at (150, 150). *)
Lemma new_sticker_is_grabbed_first_example :
  handleMouseDown two mounted at_150_150
  = (Some (pretty 2000%Z), {| px := 0; py := 0 |}).
Proof.
  exact (new_sticker_is_grabbed_first two mounted at_150_150 2000
           "data:image/png;base64,BB" (stickers idle) eq_refl eq_refl).
Defined.

(** An uploaded GIF keeps its prefix, and so does a JPEG whose type is
    written [jpg]. *)
Example cleanBase64_other_types :
  Service.cleanBase64 "data:image/gif;base64,R0lG" = "data:image/gif;base64,R0lG"
  ∧ Service.cleanBase64 "data:image/jpg;base64,AA" = "data:image/jpg;base64,AA"
  ∧ Service.cleanBase64 "data:image/jpeg;base64,AA" = "AA".
Proof. by vm_compute. Qed.

Lemma applyCaption_keeps_short_or_plain_example :
  Caption.applyCaption short = ("", short).
Proof.
  assert (String.length short ≤ 30)%nat as Hshort by (vm_compute; lia).
  exact (applyCaption_keeps_short_or_plain short (or_intror Hshort)).
Defined.

Lemma applyCaption_drops_separators_example :
  contains Caption.isSeparator (Caption.applyCaption long).1 = false
  ∧ contains Caption.isSeparator (Caption.applyCaption long).2 = false.
Proof.
  assert (30 < String.length long)%nat as Hlong by (vm_compute; lia).
  exact (applyCaption_drops_separators long eq_refl Hlong).
Defined.

Lemma applyCaption_one_separator_example :
  Caption.applyCaption (setup +:+ String ","%char punchline)
  = (Caption.trim (setup +:+ " " +:+ punchline), "").
Proof.
  assert (30 < String.length (setup +:+ String ","%char punchline))%nat
    as Hlong by (vm_compute; lia).
  exact (applyCaption_one_separator setup punchline ","%char eq_refl eq_refl
           eq_refl Hlong).
Defined.

Example applyCaption_samples :
  Caption.applyCaption long
  = ("When the code works  but you do not know why", "")
  ∧ Caption.applyCaption "One, two, three, four, five, six, seven"
    = ("One  two  three  four", "five  six  seven")
  ∧ Caption.applyCaption short = ("", "Hello, world!").
Proof. by vm_compute. Qed.

End FurtherExamples.
